(** * The multi-sheet formula calculation engine

    A shallow embedding of [ProductionCalculationEngine] (the YAML based
    calculation engine of the backend) and the properties of its input
    normalizer, cell store, function library, reference resolver, formula
    evaluator, sheet orchestrator and output formatter.

    Conventions of the embedding.
    - A JavaScript number is an exact rational, [NaN], [+Infinity] or
      [-Infinity] (type [num]).  Arithmetic on finite numbers is exact; it
      agrees with IEEE doubles wherever the double computation is exact
      (integers below 2^53, dyadic fractions).  There is no negative zero.
    - A JavaScript value is a number, a string, a boolean, [undefined],
      [null] or an array (type [jsval]).
    - The cell store ([calculatedCells], a JavaScript [Map]) is a
      [gmap string jsval]; the traversal guard ([processing], a [Set]) is a
      [gset string].  Objects whose key order matters ([excelData.inputs],
      [excelData.sheets]) are lists of entries in key order.
    - Mutation of [this] is explicit state passing over the record [engine].
      [setInputs] never reads the store, so its [setCellValue] calls are
      collected in call order ([setInputs_writes]) and then applied.
    - The three [replace] passes of [evaluateFormula] work on the text of
      the formula, with the three regular expressions written out as
      scanners.
    - [eval] is a parameter of the evaluator ([evaluateFormulaWith]); the
      general theorems hold for every behaviour of [eval] that returns a
      value or throws.  [js_eval] is a concrete evaluator for the arithmetic
      fragment that rewritten formulas use; it serves the worked examples.
    - The workbook description is a parameter ([ExcelData]): the engine is
      given the file's path, and the properties hold for every description.
      Logging and [this.inputs] (assigned and never read) are left out.
    - Of the response, a read-only projection of the final store, the wc
      projection ([formatWCSheetData]), the basic-info projection
      ([formatAssumptionsBasicInfo]) and the count of stored keys
      ([total_calculated]) are modelled; the per-sheet listing of formulas
      and static values by row and column is left out. *)

From Stdlib Require Import ZArith QArith Qround Qabs Ascii String List Lia Bool.
From Stdlib Require Import DecimalString.
From stdpp Require Import gmap strings list fin_maps.

Local Open Scope string_scope.

(** ** JavaScript numbers *)

Module Num.

Inductive num : Type :=
| Fin (q : Q)
| NaN
| PInf
| NInf.

Definition of_Z (z : Z) : num := Fin (inject_Z z).

Definition fin (q : Q) : num := Fin (Qred q).

Definition zero : num := of_Z 0.
Definition one : num := of_Z 1.

Definition is_nan (n : num) : bool :=
  match n with NaN => true | _ => false end.

Definition is_finite (n : num) : bool :=
  match n with Fin _ => true | _ => false end.

(** Sign of a finite number as a comparison with 0. *)
Definition sgn (q : Q) : comparison := (Qnum q ?= 0)%Z.

Definition neg (n : num) : num :=
  match n with
  | Fin q => fin (- q)%Q
  | NaN => NaN
  | PInf => NInf
  | NInf => PInf
  end.

Definition add (a b : num) : num :=
  match a, b with
  | NaN, _ | _, NaN => NaN
  | Fin x, Fin y => fin (x + y)%Q
  | PInf, NInf | NInf, PInf => NaN
  | PInf, _ | _, PInf => PInf
  | NInf, _ | _, NInf => NInf
  end.

Definition sub (a b : num) : num := add a (neg b).

(** An infinity carrying the sign of [c] ([Eq] is the product with 0). *)
Definition inf_of_sign (c : comparison) : num :=
  match c with Gt => PInf | Lt => NInf | Eq => NaN end.

Definition flip (c : comparison) : comparison := CompOpp c.

Definition mul (a b : num) : num :=
  match a, b with
  | NaN, _ | _, NaN => NaN
  | Fin x, Fin y => fin (x * y)%Q
  | Fin x, PInf | PInf, Fin x => inf_of_sign (sgn x)
  | Fin x, NInf | NInf, Fin x => inf_of_sign (flip (sgn x))
  | PInf, PInf | NInf, NInf => PInf
  | PInf, NInf | NInf, PInf => NInf
  end.

Definition div (a b : num) : num :=
  match a, b with
  | NaN, _ | _, NaN => NaN
  | Fin x, Fin y =>
      match sgn y with
      | Eq => inf_of_sign (sgn x)
      | _ => fin (x / y)%Q
      end
  | Fin _, (PInf | NInf) => zero
  | PInf, Fin y => match sgn y with Lt => NInf | _ => PInf end
  | NInf, Fin y => match sgn y with Lt => PInf | _ => NInf end
  | (PInf | NInf), (PInf | NInf) => NaN
  end.

(** [a < b]; every comparison with [NaN] is false. *)
Definition ltb (a b : num) : bool :=
  match a, b with
  | NaN, _ | _, NaN => false
  | Fin x, Fin y => match (x ?= y)%Q with Lt => true | _ => false end
  | NInf, (Fin _ | PInf) => true
  | Fin _, PInf => true
  | _, _ => false
  end.

(** [a === b] on numbers. *)
Definition eqb (a b : num) : bool :=
  match a, b with
  | Fin x, Fin y => Qeq_bool x y
  | PInf, PInf | NInf, NInf => true
  | _, _ => false
  end.

Definition leb (a b : num) : bool := ltb a b || eqb a b.

(** [Math.round]: the nearest integer, a tie going towards +Infinity. *)
Definition math_round (n : num) : num :=
  match n with
  | Fin q => of_Z (Qfloor (q + (1 # 2))%Q)
  | other => other
  end.

Definition math_abs (n : num) : num :=
  match n with
  | Fin q => fin (Qabs q)
  | NaN => NaN
  | PInf | NInf => PInf
  end.

(** [Math.pow(10, k)] for a natural number [k]. *)
Definition pow10 (k : Z) : num := of_Z (10 ^ k).

Definition max (a b : num) : num :=
  match a, b with
  | NaN, _ | _, NaN => NaN
  | _, _ => if ltb a b then b else a
  end.

Definition min (a b : num) : num :=
  match a, b with
  | NaN, _ | _, NaN => NaN
  | _, _ => if ltb b a then b else a
  end.

End Num.

Abbreviation num := Num.num.
Abbreviation Fin := Num.Fin.
Abbreviation NaN := Num.NaN.
Abbreviation PInf := Num.PInf.
Abbreviation NInf := Num.NInf.

(** ** Text: character classes and scanning primitives *)

Module Text.

Definition code (c : ascii) : N := N_of_ascii c.

Definition in_range (lo hi : N) (c : ascii) : bool :=
  (lo <=? code c)%N && (code c <=? hi)%N.

(** [[A-Z]] *)
Definition is_upper : ascii -> bool := in_range 65 90.
(** [[a-z]] *)
Definition is_lower : ascii -> bool := in_range 97 122.
(** [\d] *)
Definition is_digit : ascii -> bool := in_range 48 57.
(** [\w], the word characters that [\b] separates from the others. *)
Definition is_word (c : ascii) : bool :=
  is_upper c || is_lower c || is_digit c || Ascii.eqb c "_".
(** [[A-Za-z0-9_\.]], the characters of a sheet name in a qualified reference. *)
Definition is_sheet_char (c : ascii) : bool :=
  is_word c || Ascii.eqb c ".".
(** White space skipped between tokens. *)
Definition is_space (c : ascii) : bool :=
  Ascii.eqb c " " || Ascii.eqb c "009" || Ascii.eqb c "010" || Ascii.eqb c "013".

Definition dquote : ascii := "034".

(** The longest prefix of [s] whose characters satisfy [p], and the rest:
    what a greedy [p+] (or [p*]) consumes. *)
Fixpoint span (p : ascii -> bool) (s : string) : string * string :=
  match s with
  | EmptyString => (EmptyString, EmptyString)
  | String c s' =>
      if p c then let (a, b) := span p s' in (String c a, b)
      else (EmptyString, s)
  end.

Definition is_empty (s : string) : bool :=
  match s with EmptyString => true | _ => false end.

Fixpoint all_chars (p : ascii -> bool) (s : string) : bool :=
  match s with
  | EmptyString => true
  | String c s' => p c && all_chars p s'
  end.

(** [s.startsWith(pre)]: the rest of [s] after [pre]. *)
Fixpoint strip_prefix (pre s : string) : option string :=
  match pre, s with
  | EmptyString, _ => Some s
  | String a pre', String b s' =>
      if Ascii.eqb a b then strip_prefix pre' s' else None
  | String _ _, EmptyString => None
  end.

(** [parts.join(sep)] *)
Fixpoint join (sep : string) (parts : list string) : string :=
  match parts with
  | [] => EmptyString
  | [p] => p
  | p :: rest => p ++ sep ++ join sep rest
  end.

Definition quoted (s : string) : string :=
  String dquote (s ++ String dquote EmptyString).

(** The value of a run of decimal digits ([parseInt] of a [\d+] capture). *)
Definition digit_value (c : ascii) : N := (code c - 48)%N.

Fixpoint digits_value_from (acc : N) (s : string) : N :=
  match s with
  | EmptyString => acc
  | String c s' => digits_value_from (acc * 10 + digit_value c)%N s'
  end.

Definition parseInt (digits : string) : N := digits_value_from 0 digits.

(** Decimal digits of a natural number, ["0"] for zero. *)
Definition decimal (n : N) : string := NilZero.string_of_uint (N.to_uint n).

End Text.

(** ** Numbers as text *)

Module NumText.
Import Text.

Definition digit_char (d : N) : ascii := ascii_of_N (48 + d).

(** The digits after the decimal point of [r / d] (with [r < d]), when the
    expansion ends within [fuel] digits. *)
Fixpoint frac_digits (fuel : nat) (r d : N) : option string :=
  if (r =? 0)%N then Some EmptyString
  else
    match fuel with
    | O => None
    | S f =>
        match frac_digits f ((r * 10) mod d)%N d with
        | Some s => Some (String (digit_char ((r * 10) / d)%N) s)
        | None => None
        end
    end.

(** [String(q)] for a finite number.  An integer prints its digits, a number
    with a finite decimal expansion prints it in full; a rational with no
    finite expansion (it has no exact double either) prints as the quotient
    [(p/q)], which evaluates back to the same number. *)
Definition render_Q (q : Q) : string :=
  let q' := Qred q in
  let n := Z.abs_N (Qnum q') in
  let d := Npos (Qden q') in
  let sign := if (Qnum q' <? 0)%Z then "-" else "" in
  let ip := (n / d)%N in
  let r := (n mod d)%N in
  if (r =? 0)%N then sign ++ decimal ip
  else
    match frac_digits (Pos.size_nat (Qden q')) r d with
    | Some fs => sign ++ decimal ip ++ "." ++ fs
    | None => sign ++ "(" ++ decimal n ++ "/" ++ decimal d ++ ")"
    end.

(** [String(n)] for a number, as [String.prototype.replace] converts the
    number a replacer function returns. *)
Definition render (n : num) : string :=
  match n with
  | Fin q => render_Q q
  | NaN => "NaN"
  | PInf => "Infinity"
  | NInf => "-Infinity"
  end.

(** One element of [JSON.stringify] of an array of numbers: a number that
    is not finite is written [null]. *)
Definition json_number (n : num) : string :=
  match n with
  | Fin q => render_Q q
  | _ => "null"
  end.

(** [JSON.stringify(values)] for an array of numbers. *)
Definition json_numbers (values : list num) : string :=
  "[" ++ join "," (map json_number values) ++ "]".

(** The value of the decimal literal [ip.fp] (both runs of digits). *)
Definition decimal_literal (ip fp : string) : Q :=
  Qred (inject_Z (Z.of_N (parseInt ip))
        + inject_Z (Z.of_N (parseInt fp)) / inject_Z (10 ^ Z.of_nat (String.length fp)))%Q.

End NumText.

(** ** JavaScript values *)

#[warnings="-register-all"]
Inductive jsval : Type :=
| JNum (n : num)
| JStr (s : string)
| JBool (b : bool)
| JUndef
| JNull
| JArr (items : list jsval).

Definition JInt (z : Z) : jsval := JNum (Num.of_Z z).

(** [typeof v === 'number'] *)
Definition typeof_number (v : jsval) : bool :=
  match v with JNum _ => true | _ => false end.

(** [typeof v === 'string'] *)
Definition typeof_string (v : jsval) : bool :=
  match v with JStr _ => true | _ => false end.

(** [typeof v === 'number' && !isNaN(v)] *)
Definition is_numeric (v : jsval) : bool :=
  match v with JNum n => negb (Num.is_nan n) | _ => false end.

(** A finite number ([Number.isFinite]). *)
Definition is_finite_number (v : jsval) : bool :=
  match v with JNum n => Num.is_finite n | _ => false end.

(** [v !== undefined] *)
Definition not_undefined (v : jsval) : bool :=
  match v with JUndef => false | _ => true end.

(** [v !== undefined && v !== null] *)
Definition not_nullish (v : jsval) : bool :=
  match v with JUndef | JNull => false | _ => true end.

(** Truthiness ([ToBoolean]). *)
Definition truthy (v : jsval) : bool :=
  match v with
  | JNum (Fin q) => negb (Qeq_bool q 0)
  | JNum NaN => false
  | JNum _ => true
  | JStr s => negb (Text.is_empty s)
  | JBool b => b
  | JUndef | JNull => false
  | JArr _ => true
  end.

(** [a || b] *)
Definition js_or (a b : jsval) : jsval := if truthy a then a else b.

(** [String(v)] ([ToString]); an array joins its elements with commas. *)
Fixpoint to_string (v : jsval) : string :=
  match v with
  | JNum n => NumText.render n
  | JStr s => s
  | JBool true => "true"
  | JBool false => "false"
  | JUndef => "undefined"
  | JNull => "null"
  | JArr items =>
      Text.join ","
        (map (fun x => match x with
                       | JUndef | JNull => EmptyString
                       | _ => to_string x
                       end) items)
  end.

(** The exponent part [e+12] of a numeric string, if [s] starts with one. *)
Definition exponent_part (s : string) : option (Z * string) :=
  match s with
  | String c r =>
      if Ascii.eqb c "e" || Ascii.eqb c "E" then
        let '(negative, r1) :=
          match r with
          | String d r' =>
              if Ascii.eqb d "-" then (true, r')
              else if Ascii.eqb d "+" then (false, r')
              else (false, r)
          | EmptyString => (false, r)
          end in
        let (ds, r2) := Text.span Text.is_digit r1 in
        if Text.is_empty ds then None
        else
          let k := Z.of_N (Text.parseInt ds) in
          Some (if negative then (- k)%Z else k, r2)
      else None
  | EmptyString => None
  end.

(** [m * 10^k] *)
Definition scale10 (m : Q) (k : Z) : Q :=
  if (k <? 0)%Z then Qred (m / inject_Z (10 ^ (- k)))%Q
  else Qred (m * inject_Z (10 ^ k))%Q.

(** [Number(s)] for a string ([StringToNumber]): white space is trimmed, the
    empty string is 0, a signed decimal literal (with optional exponent) or
    [Infinity] is its value, anything else is [NaN].  Hexadecimal, octal and
    binary literals are not modelled (they read as [NaN] here). *)
Definition string_to_number (s : string) : num :=
  let (_, s1) := Text.span Text.is_space s in
  if Text.is_empty s1 then Num.zero
  else
    let '(negative, s2) :=
      match s1 with
      | String c r =>
          if Ascii.eqb c "-" then (true, r)
          else if Ascii.eqb c "+" then (false, r)
          else (false, s1)
      | EmptyString => (false, s1)
      end in
    let signed (n : num) := if negative then Num.neg n else n in
    match Text.strip_prefix "Infinity" s2 with
    | Some r => if Text.all_chars Text.is_space r then signed PInf else NaN
    | None =>
        let (ip, s3) := Text.span Text.is_digit s2 in
        let (fp, s4) :=
          match s3 with
          | String c r =>
              if Ascii.eqb c "." then Text.span Text.is_digit r
              else (EmptyString, s3)
          | EmptyString => (EmptyString, s3)
          end in
        if Text.is_empty ip && Text.is_empty fp then NaN
        else
          let m := NumText.decimal_literal ip fp in
          let (q, s5) :=
            match exponent_part s4 with
            | Some (k, r) => (scale10 m k, r)
            | None => (m, s4)
            end in
          if Text.all_chars Text.is_space s5 then signed (Fin q) else NaN
    end.

(** [Number(v)] ([ToNumber]). *)
Definition to_number (v : jsval) : num :=
  match v with
  | JNum n => n
  | JStr s => string_to_number s
  | JBool true => Num.one
  | JBool false => Num.zero
  | JUndef => NaN
  | JNull => Num.zero
  | JArr _ => string_to_number (to_string v)
  end.

(** [ToPrimitive]: an array becomes its string. *)
Definition to_primitive (v : jsval) : jsval :=
  match v with
  | JArr _ => JStr (to_string v)
  | _ => v
  end.

(** [a + b]: concatenation as soon as one side is a string. *)
Definition js_add (a b : jsval) : jsval :=
  let a' := to_primitive a in
  let b' := to_primitive b in
  if typeof_string a' || typeof_string b'
  then JStr (to_string a' ++ to_string b')
  else JNum (Num.add (to_number a') (to_number b')).

Definition js_sub (a b : jsval) : jsval := JNum (Num.sub (to_number a) (to_number b)).
Definition js_mul (a b : jsval) : jsval := JNum (Num.mul (to_number a) (to_number b)).
Definition js_div (a b : jsval) : jsval := JNum (Num.div (to_number a) (to_number b)).

(** [a < b]: two strings compare as strings, anything else as numbers. *)
Definition js_lt (a b : jsval) : bool :=
  match to_primitive a, to_primitive b with
  | JStr x, JStr y => String.ltb x y
  | a', b' => Num.ltb (to_number a') (to_number b')
  end.

Definition js_le (a b : jsval) : bool :=
  match to_primitive a, to_primitive b with
  | JStr x, JStr y => String.leb x y
  | a', b' => Num.leb (to_number a') (to_number b')
  end.

(** [a > b] as the source writes it in the unit heuristics. *)
Definition js_gt (a b : jsval) : bool := js_lt b a.
Definition js_ge (a b : jsval) : bool := js_le b a.

(** [a === b]; two array values are distinct objects. *)
Definition js_strict_eq (a b : jsval) : bool :=
  match a, b with
  | JNum x, JNum y => Num.eqb x y
  | JStr x, JStr y => String.eqb x y
  | JBool x, JBool y => Bool.eqb x y
  | JUndef, JUndef | JNull, JNull => true
  | _, _ => false
  end.

(** [a == b] *)
Definition js_loose_eq (a b : jsval) : bool :=
  match a, b with
  | (JUndef | JNull), (JUndef | JNull) => true
  | (JUndef | JNull), _ | _, (JUndef | JNull) => false
  | JArr _, JArr _ => false
  | _, _ =>
      match to_primitive a, to_primitive b with
      | JStr x, JStr y => String.eqb x y
      | a', b' => Num.eqb (to_number a') (to_number b')
      end
  end.

(** ** The function library ([excelFunctions]) *)

Module excelFunctions.

(** [args.flat()]: one level of arrays is opened. *)
Definition flat (args : list jsval) : list jsval :=
  concat (map (fun v => match v with JArr items => items | _ => [v] end) args).

(** [args.flat().filter(v => typeof v === 'number' && !isNaN(v))] *)
Definition numbers_of (args : list jsval) : list num :=
  omap (fun v => match v with
                 | JNum n => if Num.is_nan n then None else Some n
                 | _ => None
                 end) (flat args).

(** [nums.reduce((sum, n) => sum + n, 0)] *)
Definition sum_of (nums : list num) : num :=
  fold_left Num.add nums Num.zero.

Definition SUM (args : list jsval) : jsval :=
  JNum (sum_of (numbers_of args)).

Definition AVERAGE (args : list jsval) : jsval :=
  let nums := numbers_of args in
  match nums with
  | [] => JInt 0
  | _ => JNum (Num.div (sum_of nums) (Num.of_Z (Z.of_nat (length nums))))
  end.

(** [Math.max(...nums)] and [Math.min(...nums)] *)
Definition math_max (nums : list num) : num := fold_left Num.max nums NInf.
Definition math_min (nums : list num) : num := fold_left Num.min nums PInf.

Definition MAX (args : list jsval) : jsval :=
  let nums := numbers_of args in
  match nums with [] => JInt 0 | _ => JNum (math_max nums) end.

Definition MIN (args : list jsval) : jsval :=
  let nums := numbers_of args in
  match nums with [] => JInt 0 | _ => JNum (math_min nums) end.

Definition IF (condition trueValue falseValue : jsval) : jsval :=
  if truthy condition then trueValue else falseValue.

(** [ROUND(number, decimals)] for an integer [decimals]: [Math.round]
    applied after scaling by [Math.pow(10, Math.abs(decimals))]. *)
Definition ROUND (number : num) (decimals : Z) : num :=
  if (decimals =? 0)%Z then Num.math_round number
  else
    let factor := Num.pow10 (Z.abs decimals) in
    if (decimals <? 0)%Z
    then Num.mul (Num.math_round (Num.div number factor)) factor
    else Num.div (Num.math_round (Num.mul number factor)) factor.

Definition ABS (number : jsval) : jsval := JNum (Num.math_abs (to_number number)).

Definition COUNT (args : list jsval) : jsval :=
  JInt (Z.of_nat (length (numbers_of args))).

(** [v !== null && v !== undefined && v !== ''] *)
Definition counts_as_value (v : jsval) : bool :=
  match v with
  | JNull | JUndef => false
  | JStr s => negb (Text.is_empty s)
  | _ => true
  end.

Definition COUNTA (args : list jsval) : jsval :=
  JInt (Z.of_nat (length (List.filter counts_as_value (flat args)))).

End excelFunctions.

(** ** The workbook model *)

(** One entry of the [inputs] catalogue of the workbook description. *)
Record InputDefinition : Type := {
  input_sheet : string;
  input_cell : string;
  input_default : jsval   (* [undefined] when the entry has no default *)
}.

(** One entry of a sheet's [static_values]; [row], [col] and [type] only
    reach the output formatter. *)
Record StaticValue : Type := {
  static_cell : string;
  static_value : jsval
}.

(** One entry of a sheet's [formulas]. *)
Record FormulaDef : Type := {
  formula_cell : string;
  formula_text : string
}.

Record SheetData : Type := {
  static_values : option (list StaticValue);   (* [None]: the key is absent *)
  formulas : list FormulaDef
}.

(** [excelData]: both objects are kept in their key order, the order
    [Object.entries] walks them in. *)
Record ExcelData : Type := {
  inputs : list (string * InputDefinition);
  sheets : list (string * SheetData)
}.

(** [obj[key]] on an object kept as an ordered list of entries. *)
Fixpoint entry {A : Type} (key : string) (entries : list (string * A)) : option A :=
  match entries with
  | [] => None
  | (k, a) :: rest => if String.eqb k key then Some a else entry key rest
  end.

(** The caller's data: its own properties and, in the frontend format, the
    object under its [excelData] property. *)
Record FormData : Type := {
  fields : gmap string jsval;
  excelData_field : option (gmap string jsval)
}.

(** [obj[key]], [undefined] for a missing property. *)
Definition prop (obj : gmap string jsval) (key : string) : jsval :=
  default JUndef (obj !! key).

(** ** The cell store *)

(** The engine instance: the cell store and the traversal guard. *)
Record engine : Type := {
  calculatedCells : gmap string jsval;
  processing : gset string
}.

(** The state the constructor leaves. *)
Definition new_engine : engine :=
  {| calculatedCells := ∅; processing := ∅ |}.

(** [`${sheetName}!${cell}`] *)
Definition qualified (sheetName cell : string) : string :=
  sheetName ++ "!" ++ cell.

(** [setCellValue] on the store: the value goes under the qualified key and
    under the bare address. *)
Definition store_set (sheetName cell : string) (value : jsval)
    (cells : gmap string jsval) : gmap string jsval :=
  <[cell := value]> (<[qualified sheetName cell := value]> cells).

Definition setCellValue (sheetName cell : string) (value : jsval) (e : engine) : engine :=
  {| calculatedCells := store_set sheetName cell value (calculatedCells e);
     processing := processing e |}.

(** [getCellValue] on the store: the qualified key, then the bare address,
    then 0. *)
Definition store_get (cells : gmap string jsval) (sheetName cell : string) : jsval :=
  match cells !! qualified sheetName cell with
  | Some v => v
  | None =>
      match cells !! cell with
      | Some v => v
      | None => JInt 0
      end
  end.

Definition getCellValue (e : engine) (sheetName cell : string) : jsval :=
  store_get (calculatedCells e) sheetName cell.

(** ** The input normalizer ([setInputs]) *)

(** Old frontend field names and the workbook's field names. *)
Definition fieldNameMapping : list (string * string) :=
  [ ("company_name", "applicant_name");
    ("contact_person", "pan");
    ("company_address", "center");
    ("business_sector", "emp_name");
    ("nature_of_business", "rm_name");
    ("wc_loan_amount", "credit_limit");
    ("wc_interest_rate", "proposed_roi");
    ("processing_fees", "processing_fee");
    ("wc_percentage", "conversion_charges");
    ("num_skilled_workers", "partner_count");
    ("skilled_worker_salary", "partner_salary");
    ("num_semi_skilled_workers", "manager_count");
    ("semi_skilled_worker_salary", "manager_salary");
    ("num_unskilled_workers", "staff_count");
    ("unskilled_worker_salary", "staff_salary");
    ("monthly_power_charges", "electricity");
    ("rent_increment_multiplier", "rent");
    ("sales_growth_multiplier", "growth_rate");
    ("turnover_months_year_1", "year1_months");
    ("turnover_months_year_2", "year2_months");
    ("monthly_rent", "marketing_expenses");
    ("power_charges_increment_multiplier", "other_expenses") ].

(** [formData.excelData || formData] *)
Definition inputData_of (formData : FormData) : gmap string jsval :=
  match excelData_field formData with
  | Some data => data
  | None => fields formData
  end.

(** One turn of the loop over [fieldNameMapping]. *)
Definition apply_alias (inputData : gmap string jsval)
    (normalizedData : gmap string jsval) (names : string * string) : gmap string jsval :=
  let (oldName, newName) := names in
  if not_nullish (prop inputData oldName)
  then <[newName := prop inputData oldName]> normalizedData
  else normalizedData.

(** [normalizedData] after the alias loop: a copy of [inputData] in which
    every supplied old name has been stored under its new name. *)
Definition map_field_names (inputData : gmap string jsval) : gmap string jsval :=
  fold_left (apply_alias inputData) fieldNameMapping inputData.

(** [if (nd[key] && nd[key] > limit) nd[key] = f(nd[key])] *)
Definition rescale_if_above (key : string) (limit : Z) (f : jsval -> jsval)
    (normalizedData : gmap string jsval) : gmap string jsval :=
  let v := prop normalizedData key in
  if truthy v && js_gt v (JInt limit)
  then <[key := f v]> normalizedData
  else normalizedData.

(** [v / 100] *)
Definition as_fraction (v : jsval) : jsval := js_div v (JInt 100).
(** [1 + (v / 100)] *)
Definition as_multiplier (v : jsval) : jsval := js_add (JInt 1) (js_div v (JInt 100)).

(** The six unit heuristics, in source order. *)
Definition convert_units (normalizedData : gmap string jsval) : gmap string jsval :=
  let nd1 := rescale_if_above "proposed_roi" 1 as_fraction normalizedData in
  let nd2 := rescale_if_above "processing_fee" 1 as_fraction nd1 in
  let nd3 := rescale_if_above "conversion_charges" 1 as_fraction nd2 in
  let nd4 := rescale_if_above "rent" 10 as_multiplier nd3 in
  let nd5 := rescale_if_above "growth_rate" 10 as_fraction nd4 in
  rescale_if_above "other_expenses" 10 as_multiplier nd5.

Definition normalize (formData : FormData) : gmap string jsval :=
  convert_units (map_field_names (inputData_of formData)).

(** A call [setCellValue(sheet, cell, value)]. *)
Record cell_write : Type := {
  w_sheet : string;
  w_cell : string;
  w_value : jsval
}.

Definition write_to (sheetName cell : string) (value : jsval) : cell_write :=
  {| w_sheet := sheetName; w_cell := cell; w_value := value |}.

(** The write of the generic mapping for one declared input, if any. *)
Definition input_write (normalizedData : gmap string jsval)
    (item : string * InputDefinition) : list cell_write :=
  let (inputKey, inputDef) := item in
  let value :=
    if not_undefined (prop normalizedData inputKey)
    then prop normalizedData inputKey
    else input_default inputDef in
  if not_nullish value
  then [write_to (input_sheet inputDef) (input_cell inputDef) value]
  else [].

(** The loop over [Object.entries(this.excelData.inputs)]. *)
Definition input_writes (wb : ExcelData) (normalizedData : gmap string jsval) : list cell_write :=
  concat (map (input_write normalizedData) (inputs wb)).

(** [if (nd[key] !== undefined) setCellValue('Assumptions.1', cell, nd[key])] *)
Definition pinned_write (normalizedData : gmap string jsval) (key cell : string) : list cell_write :=
  if not_undefined (prop normalizedData key)
  then [write_to "Assumptions.1" cell (prop normalizedData key)]
  else [].

(** [normalizedData.monthly_rent || 7500] *)
Definition monthlyRentAmount (normalizedData : gmap string jsval) : jsval :=
  js_or (prop normalizedData "monthly_rent") (JInt 7500).

(** The input mapping corrections for cells I28 to I31 and I35. *)
Definition override_writes (normalizedData : gmap string jsval) : list cell_write :=
  pinned_write normalizedData "electricity" "I30"
  ++ pinned_write normalizedData "rent" "I29"
  ++ [write_to "Assumptions.1" "I28" (monthlyRentAmount normalizedData)]
  ++ pinned_write normalizedData "marketing_expenses" "I31"
  ++ pinned_write normalizedData "other_expenses" "I35".

(** The writes for one sheet's static values. *)
Definition sheet_static_writes (item : string * SheetData) : list cell_write :=
  let (sheetName, sheetData) := item in
  match static_values sheetData with
  | Some values =>
      concat (map (fun staticValue =>
                     if not_nullish (static_value staticValue)
                     then [write_to sheetName (static_cell staticValue) (static_value staticValue)]
                     else []) values)
  | None => []
  end.

(** The loop over [Object.entries(this.excelData.sheets)]. *)
Definition static_writes (wb : ExcelData) : list cell_write :=
  concat (map sheet_static_writes (sheets wb)).

(** F84 and F72 to F76, which the workbook description lacks. *)
Definition fix_writes : list cell_write :=
  [ write_to "Assumptions.1" "F84" (JInt 12);
    write_to "Assumptions.1" "F72" (JInt 0);
    write_to "Assumptions.1" "F73" (JInt 0);
    write_to "Assumptions.1" "F74" (JInt 0);
    write_to "Assumptions.1" "F75" (JInt 0);
    write_to "Assumptions.1" "F76" (JInt 0) ].

(** Every [setCellValue] call of [setInputs], in the order it is made. *)
Definition setInputs_writes (wb : ExcelData) (formData : FormData) : list cell_write :=
  let normalizedData := normalize formData in
  input_writes wb normalizedData
  ++ override_writes normalizedData
  ++ static_writes wb
  ++ fix_writes.

Definition apply_write (cells : gmap string jsval) (w : cell_write) : gmap string jsval :=
  store_set (w_sheet w) (w_cell w) (w_value w) cells.

Definition apply_writes (ws : list cell_write) (cells : gmap string jsval) : gmap string jsval :=
  fold_left apply_write ws cells.

Definition setInputs (wb : ExcelData) (formData : FormData) (e : engine) : engine :=
  {| calculatedCells := apply_writes (setInputs_writes wb formData) (calculatedCells e);
     processing := processing e |}.

(** ** The reference and range resolver *)

Import Text.

(** [String.prototype.replace] with a global pattern: the text is scanned
    from the left; where the pattern matches (the matcher sees the character
    before the position, for [\b], and the text from the position on, and
    returns the replacement and the length of the match) the match is
    replaced and the scan resumes after it; elsewhere the character is
    copied.  [skip] counts the characters of the current match still to be
    dropped.  No pattern of the engine matches the empty string. *)
Fixpoint replace_global (matcher : option ascii -> string -> option (string * nat))
    (prev : option ascii) (skip : nat) (s : string) : string :=
  match s with
  | EmptyString => EmptyString
  | String c s' =>
      match skip with
      | S k => replace_global matcher (Some c) k s'
      | O =>
          match matcher prev s with
          | Some (replacement, len) =>
              replacement ++ replace_global matcher (Some c) (Nat.pred len) s'
          | None => String c (replace_global matcher (Some c) O s')
          end
      end
  end.

Definition replace_all (matcher : option ascii -> string -> option (string * nat))
    (s : string) : string :=
  replace_global matcher None O s.

(** [/([A-Z]+)(\d+)/] at the head of [s]: the column, the row digits and
    the rest. *)
Definition cell_at (s : string) : option (string * string * string) :=
  let (col, r1) := span is_upper s in
  if is_empty col then None
  else
    let (row, r2) := span is_digit r1 in
    if is_empty row then None else Some (col, row, r2).

(** [cellText.match(/([A-Z]+)(\d+)/)]: the first position where the pattern
    matches. *)
Fixpoint match_cell (s : string) : option (string * string) :=
  match cell_at s with
  | Some (col, row, _) => Some (col, row)
  | None =>
      match s with
      | EmptyString => None
      | String _ s' => match_cell s'
      end
  end.

(** The body of the [for] loop of [evaluateRange], [count] turns from [row]. *)
Fixpoint range_loop (cells : gmap string jsval) (sheetName startCol : string)
    (count : nat) (row : N) (values : list num) : list num :=
  match count with
  | O => values
  | S k =>
      let cell := startCol ++ decimal row in
      let value := store_get cells sheetName cell in
      let values' :=
        match value with
        | JNum n => if Num.is_nan n then values else (values ++ [n])%list
        | _ => values
        end in
      range_loop cells sheetName startCol k (row + 1)%N values'
  end.

(** [evaluateRange(startCell, endCell, sheetName)] *)
Definition evaluateRange (cells : gmap string jsval)
    (startCell endCell sheetName : string) : list num :=
  match match_cell startCell, match_cell endCell with
  | Some (startCol, startDigits), Some (_, endDigits) =>
      let startRow := parseInt startDigits in
      let endRow := parseInt endDigits in
      range_loop cells sheetName startCol
        (N.to_nat (endRow + 1 - startRow)) startRow []
  | _, _ => []
  end.

(** [/([A-Z]+)(\d+):([A-Z]+)(\d+)/] at the head of [s]: the four groups and
    the length of the match. *)
Definition range_at (s : string) : option (string * string * string * string * nat) :=
  match cell_at s with
  | Some (startCol, startRow, String c r) =>
      if Ascii.eqb c ":" then
        match cell_at r with
        | Some (endCol, endRow, _) =>
            Some (startCol, startRow, endCol, endRow,
                  String.length startCol + String.length startRow + 1
                  + String.length endCol + String.length endRow)
        | None => None
        end
      else None
  | _ => None
  end.

(** The replacer of the range pattern. *)
Definition range_matcher (cells : gmap string jsval) (sheetName : string)
    (prev : option ascii) (s : string) : option (string * nat) :=
  match range_at s with
  | Some (startCol, startRow, endCol, endRow, len) =>
      let values := evaluateRange cells (startCol ++ startRow) (endCol ++ endRow) sheetName in
      Some (NumText.json_numbers values, len)
  | None => None
  end.

(** What a reference is replaced by: a number as it prints, a string in
    double quotes, anything else 0. *)
Definition substitution (value : jsval) : string :=
  match value with
  | JNum n => NumText.render n
  | JStr s => quoted s
  | _ => "0"
  end.

(** [/([A-Za-z0-9_\.]+)!([A-Z]+\d+)/] at the head of [s]: the sheet, the
    cell and the length of the match. *)
Definition qualified_at (s : string) : option (string * string * nat) :=
  let (sheet, r1) := span is_sheet_char s in
  if is_empty sheet then None
  else
    match r1 with
    | String c r2 =>
        if Ascii.eqb c "!" then
          match cell_at r2 with
          | Some (col, row, _) =>
              Some (sheet, col ++ row,
                    String.length sheet + 1 + String.length col + String.length row)
          | None => None
          end
        else None
    | EmptyString => None
    end.

Definition qualified_matcher (cells : gmap string jsval)
    (prev : option ascii) (s : string) : option (string * nat) :=
  match qualified_at s with
  | Some (sheet, cell, len) => Some (substitution (store_get cells sheet cell), len)
  | None => None
  end.

(** [\b] between [prev] and a word character. *)
Definition boundary_before (prev : option ascii) : bool :=
  match prev with
  | Some p => negb (is_word p)
  | None => true
  end.

(** [\b] between a word character and the head of [rest]. *)
Definition boundary_after (rest : string) : bool :=
  match rest with
  | String c _ => negb (is_word c)
  | EmptyString => true
  end.

(** [/\b([A-Z]+\d+)\b/] at the head of [s]. *)
Definition bare_at (prev : option ascii) (s : string) : option (string * nat) :=
  if boundary_before prev then
    match cell_at s with
    | Some (col, row, rest) =>
        if boundary_after rest
        then Some (col ++ row, String.length col + String.length row)
        else None
    | None => None
    end
  else None.

Definition bare_matcher (cells : gmap string jsval) (sheetName : string)
    (prev : option ascii) (s : string) : option (string * nat) :=
  match bare_at prev s with
  | Some (cell, len) => Some (substitution (store_get cells sheetName cell), len)
  | None => None
  end.

(** The three substitution passes of [evaluateFormula]. *)
Definition replace_ranges (cells : gmap string jsval) (sheetName jsCode : string) : string :=
  replace_all (range_matcher cells sheetName) jsCode.

Definition replace_qualified (cells : gmap string jsval) (jsCode : string) : string :=
  replace_all (qualified_matcher cells) jsCode.

Definition replace_bare (cells : gmap string jsval) (sheetName jsCode : string) : string :=
  replace_all (bare_matcher cells sheetName) jsCode.

Definition substitute_references (cells : gmap string jsval) (sheetName formula : string) : string :=
  replace_bare cells sheetName
    (replace_qualified cells
       (replace_ranges cells sheetName formula)).

(** [jsCode.replace(/NAME\(/g, 'this.excelFunctions.NAME(')] *)
Definition literal_matcher (pattern replacement : string)
    (prev : option ascii) (s : string) : option (string * nat) :=
  match strip_prefix pattern s with
  | Some _ => Some (replacement, String.length pattern)
  | None => None
  end.

Definition qualify_function (name jsCode : string) : string :=
  replace_all (literal_matcher (name ++ "(") ("this.excelFunctions." ++ name ++ "(")) jsCode.

(** The library functions, in the order their names are rewritten. *)
Definition function_names : list string :=
  ["SUM"; "AVERAGE"; "MAX"; "MIN"; "IF"; "ROUND"; "ABS"; "COUNT"; "COUNTA"].

Definition convert_functions (jsCode : string) : string :=
  fold_left (fun code name => qualify_function name code) function_names jsCode.

(** The text handed to [eval]. *)
Definition rewrite_formula (cells : gmap string jsval) (sheetName formula : string) : string :=
  convert_functions (substitute_references cells sheetName formula).

(** ** [eval] on the arithmetic fragment *)

(** What running a piece of JavaScript gives: a value, or an exception. *)
Inductive outcome : Type :=
| Returned (v : jsval)
| Thrown.

Module JsEval.

Inductive punct : Type :=
| LParen | RParen | LBracket | RBracket | Comma | Dot
| Plus | Minus | Star | Slash
| Less | Greater | LessEq | GreaterEq
| EqEq | NotEq | StrictEq | StrictNotEq.

Inductive token : Type :=
| TNum (q : Q)
| TStr (s : string)
| TIdent (s : string)
| TPunct (p : punct).

Definition is_ident_start (c : ascii) : bool :=
  is_upper c || is_lower c || Ascii.eqb c "_" || Ascii.eqb c "$".

Definition is_ident_part (c : ascii) : bool :=
  is_ident_start c || is_digit c.

Definition starts_with (p : ascii -> bool) (s : string) : bool :=
  match s with String c _ => p c | EmptyString => false end.

(** A decimal literal at the head of [s].  The evaluated code is strict (it
    runs inside a class body), so an integer part with a leading zero is a
    syntax error, as is a literal directly followed by a letter or digit. *)
Definition lex_number (s : string) : option (token * string) :=
  let (ip, r1) := span is_digit s in
  let (fp, r2) :=
    match r1 with
    | String c r =>
        if Ascii.eqb c "." then span is_digit r else (EmptyString, r1)
    | EmptyString => (EmptyString, r1)
    end in
  if is_empty ip && is_empty fp then None
  else if starts_with (Ascii.eqb "0") ip && (1 <? String.length ip)%nat then None
  else
    let m := NumText.decimal_literal ip fp in
    let (q, r3) :=
      match exponent_part r2 with
      | Some (k, r) => (scale10 m k, r)
      | None => (m, r2)
      end in
    if starts_with is_ident_part r3 then None else Some (TNum q, r3).

(** A string literal whose opening quote [q] has been read: the characters
    up to the next [q].  Escapes and line breaks are outside the fragment. *)
Fixpoint lex_string (q : ascii) (s : string) : option (string * string) :=
  match s with
  | EmptyString => None
  | String c r =>
      if Ascii.eqb c q then Some (EmptyString, r)
      else if Ascii.eqb c "\" || Ascii.eqb c "010" || Ascii.eqb c "013" then None
      else
        match lex_string q r with
        | Some (body, rest) => Some (String c body, rest)
        | None => None
        end
  end.

Definition punct_table : list (string * punct) :=
  [ ("===", StrictEq); ("!==", StrictNotEq);
    ("==", EqEq); ("!=", NotEq); ("<=", LessEq); (">=", GreaterEq);
    ("(", LParen); (")", RParen); ("[", LBracket); ("]", RBracket);
    (",", Comma); (".", Dot); ("+", Plus); ("-", Minus); ("*", Star);
    ("/", Slash); ("<", Less); (">", Greater) ].

(** Operators that start like one of the table but are other tokens of the
    language: [++], [--], [**], [<<], [>>], [//], [/*], [=>]. *)
Definition foreign_operators : list string :=
  ["++"; "--"; "**"; "<<"; ">>"; "//"; "/*"; "=>"].

Fixpoint lex_punct (table : list (string * punct)) (s : string) : option (token * string) :=
  match table with
  | [] => None
  | (text, p) :: table' =>
      match strip_prefix text s with
      | Some rest => Some (TPunct p, rest)
      | None => lex_punct table' s
      end
  end.

Definition next_token (s : string) : option (token * string) :=
  match s with
  | EmptyString => None
  | String c r =>
      if is_digit c || (Ascii.eqb c "." && starts_with is_digit r) then lex_number s
      else if Ascii.eqb c dquote || Ascii.eqb c "'" then
        match lex_string c r with
        | Some (body, rest) => Some (TStr body, rest)
        | None => None
        end
      else if is_ident_start c then
        let (name, rest) := span is_ident_part s in Some (TIdent name, rest)
      else if existsb (fun op => match strip_prefix op s with Some _ => true | None => false end)
                foreign_operators
      then None
      else lex_punct punct_table s
  end.

(** The tokens of [s]; [None] when some character starts no token of the
    fragment.  Every turn consumes a character, so [fuel] beyond the length
    of [s] is never used up. *)
Fixpoint lex (fuel : nat) (s : string) : option (list token) :=
  match fuel with
  | O => None
  | S f =>
      let (_, s1) := span is_space s in
      match s1 with
      | EmptyString => Some []
      | _ =>
          match next_token s1 with
          | Some (t, rest) =>
              match lex f rest with
              | Some ts => Some (t :: ts)
              | None => None
              end
          | None => None
          end
      end
  end.

#[warnings="-register-all"]
Inductive expr : Type :=
| ENum (q : Q)
| EStr (s : string)
| EIdent (name : string)
| EArray (items : list expr)
| ECall (name : string) (args : list expr)
| ENeg (e : expr)
| EPos (e : expr)
| EBin (op : punct) (lhs rhs : expr).

(** Binding strength of the binary operators. *)
Definition precedence (p : punct) : option nat :=
  match p with
  | EqEq | NotEq | StrictEq | StrictNotEq => Some 1%nat
  | Less | Greater | LessEq | GreaterEq => Some 2%nat
  | Plus | Minus => Some 3%nat
  | Star | Slash => Some 4%nat
  | _ => None
  end.

(** Recursive descent with precedence climbing.  Every call either consumes
    a token or is made by one that just did, so the depth of calls is at
    most a small multiple of the number of tokens. *)
Fixpoint parse_primary (fuel : nat) (ts : list token) : option (expr * list token) :=
  match fuel with
  | O => None
  | S f =>
      match ts with
      | TNum q :: r => Some (ENum q, r)
      | TStr s :: r => Some (EStr s, r)
      | TPunct LParen :: r =>
          match parse_binary f 0 r with
          | Some (e, TPunct RParen :: r') => Some (e, r')
          | _ => None
          end
      | TPunct LBracket :: TPunct RBracket :: r => Some (EArray [], r)
      | TPunct LBracket :: r =>
          match parse_items f r with
          | Some (items, TPunct RBracket :: r') => Some (EArray items, r')
          | _ => None
          end
      | TPunct Minus :: r =>
          match parse_primary f r with
          | Some (e, r') => Some (ENeg e, r')
          | None => None
          end
      | TPunct Plus :: r =>
          match parse_primary f r with
          | Some (e, r') => Some (EPos e, r')
          | None => None
          end
      | TIdent obj :: TPunct Dot :: TIdent lib :: TPunct Dot :: TIdent name :: TPunct LParen :: r =>
          if String.eqb obj "this" && String.eqb lib "excelFunctions" then
            match r with
            | TPunct RParen :: r' => Some (ECall name [], r')
            | _ =>
                match parse_items f r with
                | Some (args, TPunct RParen :: r') => Some (ECall name args, r')
                | _ => None
                end
            end
          else None
      | TIdent name :: r => Some (EIdent name, r)
      | _ => None
      end
  end
with parse_binary (fuel : nat) (min_prec : nat) (ts : list token) : option (expr * list token) :=
  match fuel with
  | O => None
  | S f =>
      match parse_primary f ts with
      | Some (lhs, r) => parse_operators f min_prec lhs r
      | None => None
      end
  end
with parse_operators (fuel : nat) (min_prec : nat) (lhs : expr) (ts : list token)
    : option (expr * list token) :=
  match fuel with
  | O => None
  | S f =>
      match ts with
      | TPunct op :: r =>
          match precedence op with
          | Some p =>
              if (min_prec <=? p)%nat then
                match parse_binary f (S p) r with
                | Some (rhs, r') => parse_operators f min_prec (EBin op lhs rhs) r'
                | None => None
                end
              else Some (lhs, ts)
          | None => Some (lhs, ts)
          end
      | _ => Some (lhs, ts)
      end
  end
with parse_items (fuel : nat) (ts : list token) : option (list expr * list token) :=
  match fuel with
  | O => None
  | S f =>
      match parse_binary f 0 ts with
      | Some (e, TPunct Comma :: r) =>
          match parse_items f r with
          | Some (es, r') => Some (e :: es, r')
          | None => None
          end
      | Some (e, r) => Some ([e], r)
      | None => None
      end
  end.

(** The identifiers the fragment knows; any other is a [ReferenceError]. *)
Definition global (name : string) : option jsval :=
  if String.eqb name "NaN" then Some (JNum NaN)
  else if String.eqb name "Infinity" then Some (JNum PInf)
  else if String.eqb name "undefined" then Some JUndef
  else if String.eqb name "null" then Some JNull
  else if String.eqb name "true" then Some (JBool true)
  else if String.eqb name "false" then Some (JBool false)
  else None.

Definition binary (op : punct) (a b : jsval) : option jsval :=
  match op with
  | Plus => Some (js_add a b)
  | Minus => Some (js_sub a b)
  | Star => Some (js_mul a b)
  | Slash => Some (js_div a b)
  | Less => Some (JBool (js_lt a b))
  | Greater => Some (JBool (js_gt a b))
  | LessEq => Some (JBool (js_le a b))
  | GreaterEq => Some (JBool (js_ge a b))
  | EqEq => Some (JBool (js_loose_eq a b))
  | NotEq => Some (JBool (negb (js_loose_eq a b)))
  | StrictEq => Some (JBool (js_strict_eq a b))
  | StrictNotEq => Some (JBool (negb (js_strict_eq a b)))
  | _ => None
  end.

(** The [i]-th argument of a call, [undefined] when it is missing. *)
Definition arg (i : nat) (args : list jsval) : jsval := nth i args JUndef.

(** [this.excelFunctions.ROUND(number, decimals)] on values.  A digit count
    that is not a number of digits at all ([NaN], an infinity) gives [NaN];
    a fractional one needs an irrational power of ten and is outside the
    fragment. *)
Definition round_call (number decimals : jsval) : option jsval :=
  match to_number decimals with
  | Fin d =>
      if Qeq_bool (inject_Z (Qfloor d)) d
      then Some (JNum (excelFunctions.ROUND (to_number number) (Qfloor d)))
      else None
  | _ => Some (JNum NaN)
  end.

(** A call [this.excelFunctions.name(...args)]; a name the library lacks is
    not a function, and calling it throws. *)
Definition call (name : string) (args : list jsval) : option jsval :=
  if String.eqb name "SUM" then Some (excelFunctions.SUM args)
  else if String.eqb name "AVERAGE" then Some (excelFunctions.AVERAGE args)
  else if String.eqb name "MAX" then Some (excelFunctions.MAX args)
  else if String.eqb name "MIN" then Some (excelFunctions.MIN args)
  else if String.eqb name "IF" then Some (excelFunctions.IF (arg 0 args) (arg 1 args) (arg 2 args))
  else if String.eqb name "ROUND" then round_call (arg 0 args) (arg 1 args)
  else if String.eqb name "ABS" then Some (excelFunctions.ABS (arg 0 args))
  else if String.eqb name "COUNT" then Some (excelFunctions.COUNT args)
  else if String.eqb name "COUNTA" then Some (excelFunctions.COUNTA args)
  else None.

(** The values of a list of expressions, given how one is evaluated. *)
Definition eval_each (eval_one : expr -> option jsval) : list expr -> option (list jsval) :=
  fix go (es : list expr) : option (list jsval) :=
    match es with
    | [] => Some []
    | e :: rest =>
        match eval_one e, go rest with
        | Some v, Some vs => Some (v :: vs)
        | _, _ => None
        end
    end.

Fixpoint eval_expr (e : expr) : option jsval :=
  match e with
  | ENum q => Some (JNum (Fin q))
  | EStr s => Some (JStr s)
  | EIdent name => global name
  | EArray items =>
      match eval_each eval_expr items with
      | Some vs => Some (JArr vs)
      | None => None
      end
  | ECall name args =>
      match eval_each eval_expr args with
      | Some vs => call name vs
      | None => None
      end
  | ENeg e1 =>
      match eval_expr e1 with
      | Some v => Some (JNum (Num.neg (to_number v)))
      | None => None
      end
  | EPos e1 =>
      match eval_expr e1 with
      | Some v => Some (JNum (to_number v))
      | None => None
      end
  | EBin op lhs rhs =>
      match eval_expr lhs, eval_expr rhs with
      | Some a, Some b => binary op a b
      | _, _ => None
      end
  end.

(** [eval(jsCode)] on the fragment: number, string and array literals, the
    named constants, parentheses, unary and binary arithmetic, comparisons
    and calls of the function library.  An empty program is [undefined].
    Text outside the fragment is reported as thrown. *)
Definition js_eval (jsCode : string) : outcome :=
  match lex (S (String.length jsCode)) jsCode with
  | Some [] => Returned JUndef
  | Some ts =>
      match parse_binary (4 * length ts + 4) 0 ts with
      | Some (e, []) =>
          match eval_expr e with
          | Some v => Returned v
          | None => Thrown
          end
      | _ => Thrown
      end
  | None => Thrown
  end.

End JsEval.

Abbreviation js_eval := JsEval.js_eval.

(** ** The formula evaluator and the orchestrator *)

Section Evaluator.

(** How the host evaluates a piece of rewritten code. *)
Variable ev : string -> outcome.

Definition with_processing (e : engine) (guard : gset string) : engine :=
  {| calculatedCells := calculatedCells e; processing := guard |}.

(** [evaluateFormula(formula, sheetName, cellAddress)]: the result and the
    engine it leaves. *)
Definition evaluateFormulaWith (formula sheetName cellAddress : string) (e : engine)
    : jsval * engine :=
  let cellKey := qualified sheetName cellAddress in
  if bool_decide (cellKey ∈ processing e)
  then (JInt 0, e)                                   (* circular reference *)
  else
    let e1 := with_processing e (processing e ∪ {[cellKey]}) in
    let jsCode := rewrite_formula (calculatedCells e1) sheetName formula in
    match ev jsCode with
    | Returned result =>
        (result, with_processing e1 (processing e1 ∖ {[cellKey]}))
    | Thrown =>                                      (* catch *)
        (JInt 0, with_processing e1 (processing e1 ∖ {[cellKey]}))
    end.

(** One turn of the loop of [calculateSheet]. *)
Definition calculateFormula (sheetName : string) (e : engine) (formulaDef : FormulaDef) : engine :=
  let (result, e') :=
    evaluateFormulaWith (formula_text formulaDef) sheetName (formula_cell formulaDef) e in
  setCellValue sheetName (formula_cell formulaDef) result e'.

(** [calculateSheet(sheetName)] *)
Definition calculateSheetWith (wb : ExcelData) (e : engine) (sheetName : string) : engine :=
  match entry sheetName (sheets wb) with
  | None => e                                        (* sheet not found *)
  | Some sheet => fold_left (calculateFormula sheetName) (formulas sheet) e
  end.

(** The sheets of [order], one after the other. *)
Definition calculateSheetsWith (wb : ExcelData) (order : list string) (e : engine) : engine :=
  fold_left (calculateSheetWith wb) order e.

End Evaluator.

(** The dependency order [calculateAll] walks the sheets in. *)
Definition sheetOrder : list string :=
  [ "Assumptions.1"; "Depsch"; "wc"; "FinalWorkings"; "plbs";
    "RATIO"; "MPBF"; "Nayak"; "Coverpage" ].

Definition calculateAllWith (ev : string -> outcome) (wb : ExcelData) (e : engine) : engine :=
  calculateSheetsWith ev wb sheetOrder e.

(** [execute(formData)]: [loaded] is what [loadExcelData] read, [None] when
    reading or parsing the workbook description failed; that exception is
    the only one [execute] lets out.  The response is a projection of the
    final store. *)
Definition executeWith (ev : string -> outcome) (loaded : option ExcelData)
    (formData : FormData) : option engine :=
  match loaded with
  | None => None
  | Some wb => Some (calculateAllWith ev wb (setInputs wb formData new_engine))
  end.

(** The engine with the evaluator of the arithmetic fragment. *)
Definition evaluateFormula := evaluateFormulaWith js_eval.
Definition calculateSheets := calculateSheetsWith js_eval.
Definition calculateAll := calculateAllWith js_eval.
Definition execute := executeWith js_eval.

(** ** The output formatter *)

(** [getVal] of [formatWCSheetData]: the value the sheet wc reads for
    [cell] when it is a number other than [NaN], and 0 otherwise. *)
Definition getVal (e : engine) (cell : string) : jsval :=
  let value := getCellValue e "wc" cell in
  if is_numeric value then value else JInt 0.

(** The five period columns of a row of wc, as every [values] array of
    [formatWCSheetData] lists them:
    [[getVal('C8'), getVal('D8'), getVal('E8'), getVal('F8'), getVal('G8')]]
    is [row_values e "8"]. *)
Definition row_values (e : engine) (row : string) : list jsval :=
  [ getVal e ("C" ++ row); getVal e ("D" ++ row); getVal e ("E" ++ row);
    getVal e ("F" ++ row); getVal e ("G" ++ row) ].

Module WC.

(** A line of the projection; [note] and [schedule] are [None] where the
    object has no such key ([schedule] is [null] wherever it is present). *)
Record LineItem : Type := {
  particular : string;
  note : option string;
  schedule : option jsval;
  values : list jsval
}.

Record Category : Type := {
  categoryName : string;
  lineItems : list LineItem
}.

(** [profitAndLossAccount] *)
Record ProfitAndLoss : Type := {
  pl_title : string;
  pl_lineItems : list LineItem;
  pl_footerNote : string
}.

(** [sourcesOfFunds] and [applicationOfFunds] *)
Record Funds : Type := {
  funds_title : string;
  categories : list Category;
  funds_total : LineItem
}.

Record BalanceSheet : Type := {
  bs_title : string;
  sourcesOfFunds : Funds;
  applicationOfFunds : Funds;
  bs_footerNote : string
}.

(** [administrativeAndSellingExpense] *)
Record Expenses : Type := {
  exp_title : string;
  exp_lineItems : list LineItem;
  exp_total : LineItem;
  exp_footerNote : string
}.

Record Workings : Type := {
  profitAndLossAccount : ProfitAndLoss;
  balanceSheet : BalanceSheet;
  administrativeAndSellingExpense : Expenses;
  otherData : list LineItem
}.

Record Sheet : Type := {
  title : string;
  periods : list string;
  workings : Workings
}.

(** [{ particular, schedule: null, values }] *)
Definition scheduled (e : engine) (name row : string) : LineItem :=
  {| particular := name; note := None; schedule := Some JNull;
     values := row_values e row |}.

(** [{ particular, note, schedule: null, values }] *)
Definition noted (e : engine) (name remark row : string) : LineItem :=
  {| particular := name; note := Some remark; schedule := Some JNull;
     values := row_values e row |}.

(** [{ particular, values }] *)
Definition plain (e : engine) (name row : string) : LineItem :=
  {| particular := name; note := None; schedule := None;
     values := row_values e row |}.

Definition footer : string :=
  "When ever editing is done , this totally must be calculated automatically".

End WC.

(** [formatWCSheetData()]: [None] is the [null] it returns when the workbook
    has no sheet wc. *)
Definition formatWCSheetData (wb : ExcelData) (e : engine) : option WC.Sheet :=
  match entry "wc" (sheets wb) with
  | None => None
  | Some _ =>
      Some
        {| WC.title := "STEP 2 : BACK GROUND CALCULATION . NOT TO BE VISIBLE TO CUSTOMER";
           WC.periods :=
             [ "Estimated Sept to Mar 2025-26"; "Projected 2026-27"; "Projected 2027-28";
               "Projected 2028-29"; "Projected 2029-30" ];
           WC.workings :=
             {| WC.profitAndLossAccount :=
                  {| WC.pl_title := "WORKINGS FOR PROFIT AND LOSS ACCOUNT";
                     WC.pl_lineItems :=
                       [ WC.scheduled e "Turnover" "8";
                         WC.scheduled e "Opening Stock" "10";
                         WC.scheduled e "Direct Material & Expenses" "11";
                         WC.scheduled e "Closing Stock" "12";
                         WC.scheduled e "Operating Expenses" "13";
                         WC.scheduled e "Gross Profit (A)" "15";
                         WC.scheduled e "Non Operating Income (B)" "17";
                         WC.scheduled e "Adm & Selling Expenses ( C )" "19";
                         WC.scheduled e "EBDIT(D=A+B-C)" "21";
                         WC.scheduled e "Less : Depreciation (E)" "23";
                         WC.scheduled e "EBIT (F = D - E)" "25";
                         WC.scheduled e "Less: Interest (G)" "27";
                         WC.scheduled e "EBT (H=F-G)" "29" ];
                     WC.pl_footerNote := WC.footer |};
                WC.balanceSheet :=
                  {| WC.bs_title := "WORKINGS FOR BALANCE SHEET";
                     WC.sourcesOfFunds :=
                       {| WC.funds_title := "SOURCES OF FUNDS:";
                          WC.categories :=
                            [ {| WC.categoryName := "Net Capital";
                                 WC.lineItems :=
                                   [ WC.noted e "Net Capital"
                                       "(Opening capital + Net profit -Drawings)" "36" ] |};
                              {| WC.categoryName := "CURRENT LIABILITIES:";
                                 WC.lineItems :=
                                   [ WC.scheduled e "Bank CC/OD Loan" "39";
                                     WC.scheduled e "Other Current Liabilities" "40" ] |} ];
                          WC.funds_total := WC.plain e "Total Sources of Funds" "42" |};
                     WC.applicationOfFunds :=
                       {| WC.funds_title := "APPLICATION OF FUNDS:";
                          WC.categories :=
                            [ {| WC.categoryName := "FIXED ASSETS:";
                                 WC.lineItems := [ WC.scheduled e "FIXED ASSETS:" "46" ] |};
                              {| WC.categoryName := "NON CURRENT ASSETS:";
                                 WC.lineItems := [] |};
                              {| WC.categoryName := "CURRENT ASSETS:";
                                 WC.lineItems :=
                                   [ WC.scheduled e "Closing Stock" "53";
                                     WC.scheduled e "Debtors /Recievables" "54";
                                     WC.scheduled e "Other Current Assets" "56";
                                     WC.scheduled e "Cash and Cash Equivalents" "58" ] |} ];
                          WC.funds_total := WC.plain e "Total Application of Funds" "42" |};
                     WC.bs_footerNote := WC.footer |};
                WC.administrativeAndSellingExpense :=
                  {| WC.exp_title := "WORKINGS FOR ADMINSTRATIVE AND SELLING EXPENSE";
                     WC.exp_lineItems :=
                       [ WC.plain e "Electricity" "64";
                         WC.plain e "Salaries & Wages" "65";
                         WC.plain e "Rent" "66";
                         WC.plain e "Processing fees" "67";
                         WC.plain e "Miscellenious expenses" "68";
                         WC.plain e "Off Admin and Marketing expenses" "69" ];
                     WC.exp_total := WC.plain e "Total Admin & Selling Expenses" "19";
                     WC.exp_footerNote := WC.footer |};
                WC.otherData :=
                  [ WC.plain e "Salaries" "73"; WC.plain e "Salaries" "80" ] |} |}
  end.

Module BasicInfo.

Record CompanyInfo : Type := {
  applicant_name : jsval; pan : jsval; center : jsval; emp_name : jsval; rm_name : jsval
}.

Record FinancialInputs : Type := {
  credit_limit : jsval; proposed_roi : jsval; processing_fee : jsval;
  conversion_charges : jsval
}.

Record EmployeeInfo : Type := {
  partner_count : jsval; manager_count : jsval; staff_count : jsval;
  partner_salary : jsval; manager_salary : jsval; staff_salary : jsval
}.

Record OperatingExpenses : Type := {
  electricity : jsval; rent : jsval; marketing_expenses : jsval; other_expenses : jsval
}.

Record Assumptions : Type := {
  growth_rate : jsval; year1_months : jsval; year2_months : jsval
}.

Record FixedAssets : Type := {
  land_cost : jsval; building_cost : jsval; furniture_cost : jsval
}.

Record Info : Type := {
  companyInfo : CompanyInfo;
  financialInputs : FinancialInputs;
  employeeInfo : EmployeeInfo;
  operatingExpenses : OperatingExpenses;
  assumptions : Assumptions;
  fixedAssets : FixedAssets
}.

End BasicInfo.

(** The [inputData] object of [formatAssumptionsBasicInfo]: for every
    declared input, what its declared cell reads. *)
Definition collect_inputs (wb : ExcelData) (e : engine) : gmap string jsval :=
  fold_left
    (fun inputData (item : string * InputDefinition) =>
       let (key, inputDef) := item in
       <[key := getCellValue e (input_sheet inputDef) (input_cell inputDef)]> inputData)
    (inputs wb) ∅.

(** [formatAssumptionsBasicInfo()] *)
Definition formatAssumptionsBasicInfo (wb : ExcelData) (e : engine) : BasicInfo.Info :=
  let inputData := collect_inputs wb e in
  {| BasicInfo.companyInfo :=
       {| BasicInfo.applicant_name := prop inputData "applicant_name";
          BasicInfo.pan := prop inputData "pan";
          BasicInfo.center := prop inputData "center";
          BasicInfo.emp_name := prop inputData "emp_name";
          BasicInfo.rm_name := prop inputData "rm_name" |};
     BasicInfo.financialInputs :=
       {| BasicInfo.credit_limit := prop inputData "credit_limit";
          BasicInfo.proposed_roi := prop inputData "proposed_roi";
          BasicInfo.processing_fee := prop inputData "processing_fee";
          BasicInfo.conversion_charges := prop inputData "conversion_charges" |};
     BasicInfo.employeeInfo :=
       {| BasicInfo.partner_count := prop inputData "partner_count";
          BasicInfo.manager_count := prop inputData "manager_count";
          BasicInfo.staff_count := prop inputData "staff_count";
          BasicInfo.partner_salary := prop inputData "partner_salary";
          BasicInfo.manager_salary := prop inputData "manager_salary";
          BasicInfo.staff_salary := prop inputData "staff_salary" |};
     BasicInfo.operatingExpenses :=
       {| BasicInfo.electricity := prop inputData "electricity";
          BasicInfo.rent := prop inputData "rent";
          BasicInfo.marketing_expenses := prop inputData "marketing_expenses";
          BasicInfo.other_expenses := prop inputData "other_expenses" |};
     BasicInfo.assumptions :=
       {| BasicInfo.growth_rate := prop inputData "growth_rate";
          BasicInfo.year1_months := prop inputData "year1_months";
          BasicInfo.year2_months := prop inputData "year2_months" |};
     BasicInfo.fixedAssets :=
       {| BasicInfo.land_cost := prop inputData "land_cost";
          BasicInfo.building_cost := prop inputData "building_cost";
          BasicInfo.furniture_cost := prop inputData "furniture_cost" |} |}.

(** [metadata.total_calculated] of the response: [this.calculatedCells.size]. *)
Definition total_calculated (e : engine) : nat := size (calculatedCells e).

(** * Properties *)

(** ** Vocabulary of the statements *)

(** The write [w] stores under [key]. *)
Definition touches (key : string) (w : cell_write) : bool :=
  String.eqb key (w_cell w) || String.eqb key (qualified (w_sheet w) (w_cell w)).

(** The value of the last write of [ws] that stores under [key]. *)
Fixpoint last_touch (key : string) (ws : list cell_write) : option jsval :=
  match ws with
  | [] => None
  | w :: rest =>
      match last_touch key rest with
      | Some v => Some v
      | None => if touches key w then Some (w_value w) else None
      end
  end.

(** The unit heuristic of a key, as a function of the value it holds. *)
Definition unit_rule (key : string) (v : jsval) : jsval :=
  if String.eqb key "proposed_roi" || String.eqb key "processing_fee"
     || String.eqb key "conversion_charges"
  then (if truthy v && js_gt v (JInt 1) then as_fraction v else v)
  else if String.eqb key "growth_rate"
  then (if truthy v && js_gt v (JInt 10) then as_fraction v else v)
  else if String.eqb key "rent" || String.eqb key "other_expenses"
  then (if truthy v && js_gt v (JInt 10) then as_multiplier v else v)
  else v.

(** What [evaluateFormula] returns for an outcome of [eval]. *)
Definition value_or_zero (o : outcome) : jsval :=
  match o with
  | Returned v => v
  | Thrown => JInt 0
  end.

(** The states of a run: the one [setInputs] leaves, and any state reached
    from it by evaluating a formula of the workbook and storing its result,
    in whatever order the formulas are taken. *)
Inductive reachable (ev : string -> outcome) (wb : ExcelData) (formData : FormData)
    : engine -> Prop :=
| reach_inputs : reachable ev wb formData (setInputs wb formData new_engine)
| reach_formula e sheetName sheet formulaDef :
    entry sheetName (sheets wb) = Some sheet ->
    formulaDef ∈ formulas sheet ->
    reachable ev wb formData e ->
    reachable ev wb formData (calculateFormula ev sheetName e formulaDef).

(** No formula of the workbook stores under [key]. *)
Definition formula_free (wb : ExcelData) (key : string) : bool :=
  forallb (fun item : string * SheetData =>
             forallb (fun f => negb (touches key (write_to (fst item) (formula_cell f) JUndef)))
                     (formulas (snd item)))
          (sheets wb).

(** The rows [startRow, ..., endRow]. *)
Definition rows_between (startRow endRow : N) : list N :=
  map (fun i => (startRow + N.of_nat i)%N) (seq 0 (N.to_nat (endRow + 1 - startRow))).

(** A stored value as a range member: a number that is not [NaN]. *)
Definition range_member (v : jsval) : option num :=
  match v with
  | JNum n => if Num.is_nan n then None else Some n
  | _ => None
  end.

(** The numeric values of column [col], rows [startRow] to [endRow], as the
    current sheet reads them, in row order, the others skipped. *)
Definition numeric_cells (cells : gmap string jsval) (sheetName col : string)
    (startRow endRow : N) : list num :=
  omap (fun row => range_member (store_get cells sheetName (col ++ decimal row)))
       (rows_between startRow endRow).

(** The invariant the data model states for a stored value. *)
Definition finite_number_or_string (v : jsval) : bool :=
  is_finite_number v || typeof_string v.

Definition not_upper (c : ascii) : bool := negb (is_upper c).



(** No ['!'] occurs in [s]: what a cell address looks like. *)
Definition bang_free (s : string) : bool :=
  all_chars (fun c => negb (Ascii.eqb c "!")) s.

(** The keys the overrides pin and the cells of Assumptions.1 they go to. *)
Definition pinned_inputs : list (string * string) :=
  [ ("electricity", "I30"); ("rent", "I29");
    ("marketing_expenses", "I31"); ("other_expenses", "I35") ].

(** The keys the unit heuristics rescale, each with the largest number that
    rescaling leaves at or below the threshold of its heuristic. *)
Definition unit_keys : list (string * Q) :=
  [ ("proposed_roi", 100); ("processing_fee", 100); ("conversion_charges", 100);
    ("rent", 900); ("growth_rate", 1000); ("other_expenses", 900) ]%Q.

(** The numeric members of an argument list, as one array argument. *)
Definition numeric_members (args : list jsval) : list jsval :=
  [JArr (map JNum (excelFunctions.numbers_of args))].

(** Every line item of the wc projection, section by section. *)
Definition wc_line_items (sheet : WC.Sheet) : list WC.LineItem :=
  let w := WC.workings sheet in
  let funds_items (f : WC.Funds) :=
    (concat (map WC.lineItems (WC.categories f)) ++ [WC.funds_total f])%list in
  (WC.pl_lineItems (WC.profitAndLossAccount w)
   ++ funds_items (WC.sourcesOfFunds (WC.balanceSheet w))
   ++ funds_items (WC.applicationOfFunds (WC.balanceSheet w))
   ++ WC.exp_lineItems (WC.administrativeAndSellingExpense w)
   ++ [WC.exp_total (WC.administrativeAndSellingExpense w)]
   ++ WC.otherData w)%list.

(** The line of [items] called [name], if there is one. *)
Definition line_named (name : string) (items : list WC.LineItem) : option WC.LineItem :=
  List.find (fun item => String.eqb (WC.particular item) name) items.

(** The fields of the basic-info projection, each under its key. *)
Definition basic_info_fields (info : BasicInfo.Info) : list (string * jsval) :=
  [ ("applicant_name", BasicInfo.applicant_name (BasicInfo.companyInfo info));
    ("pan", BasicInfo.pan (BasicInfo.companyInfo info));
    ("center", BasicInfo.center (BasicInfo.companyInfo info));
    ("emp_name", BasicInfo.emp_name (BasicInfo.companyInfo info));
    ("rm_name", BasicInfo.rm_name (BasicInfo.companyInfo info));
    ("credit_limit", BasicInfo.credit_limit (BasicInfo.financialInputs info));
    ("proposed_roi", BasicInfo.proposed_roi (BasicInfo.financialInputs info));
    ("processing_fee", BasicInfo.processing_fee (BasicInfo.financialInputs info));
    ("conversion_charges", BasicInfo.conversion_charges (BasicInfo.financialInputs info));
    ("partner_count", BasicInfo.partner_count (BasicInfo.employeeInfo info));
    ("manager_count", BasicInfo.manager_count (BasicInfo.employeeInfo info));
    ("staff_count", BasicInfo.staff_count (BasicInfo.employeeInfo info));
    ("partner_salary", BasicInfo.partner_salary (BasicInfo.employeeInfo info));
    ("manager_salary", BasicInfo.manager_salary (BasicInfo.employeeInfo info));
    ("staff_salary", BasicInfo.staff_salary (BasicInfo.employeeInfo info));
    ("electricity", BasicInfo.electricity (BasicInfo.operatingExpenses info));
    ("rent", BasicInfo.rent (BasicInfo.operatingExpenses info));
    ("marketing_expenses", BasicInfo.marketing_expenses (BasicInfo.operatingExpenses info));
    ("other_expenses", BasicInfo.other_expenses (BasicInfo.operatingExpenses info));
    ("growth_rate", BasicInfo.growth_rate (BasicInfo.assumptions info));
    ("year1_months", BasicInfo.year1_months (BasicInfo.assumptions info));
    ("year2_months", BasicInfo.year2_months (BasicInfo.assumptions info));
    ("land_cost", BasicInfo.land_cost (BasicInfo.fixedAssets info));
    ("building_cost", BasicInfo.building_cost (BasicInfo.fixedAssets info));
    ("furniture_cost", BasicInfo.furniture_cost (BasicInfo.fixedAssets info)) ].

(** What the declared cell of the input [key] reads, [undefined] for a key
    the workbook does not declare. *)
Definition declared_cell_reading (wb : ExcelData) (e : engine) (key : string) : jsval :=
  match entry key (inputs wb) with
  | Some inputDef => getCellValue e (input_sheet inputDef) (input_cell inputDef)
  | None => JUndef
  end.

(** ** Workbooks and caller data of the examples *)

Definition alias_workbook : ExcelData :=
  {| inputs :=
       [ ("applicant_name",
          {| input_sheet := "Assumptions.1"; input_cell := "C3"; input_default := JUndef |});
         ("proposed_roi",
          {| input_sheet := "Assumptions.1"; input_cell := "C9"; input_default := JUndef |}) ];
     sheets := [] |}.

(** The caller supplies the alias [company_name] and its canonical key. *)
Definition both_names_supplied : FormData :=
  {| fields := <["company_name" := JStr "Old Co"]> (<["applicant_name" := JStr "New Co"]> ∅);
     excelData_field := None |}.

(** The caller supplies only the alias [wc_interest_rate], as a percentage. *)
Definition alias_only_supplied : FormData :=
  {| fields := <["wc_interest_rate" := JInt 12]> ∅;
     excelData_field := None |}.

(** A workbook that declares a static value in a cell an input is mapped
    to, once in an ordinary cell (I31) and once in the pinned cell F84. *)
Definition static_over_input_workbook : ExcelData :=
  {| inputs :=
       [ ("marketing_expenses",
          {| input_sheet := "Assumptions.1"; input_cell := "I31"; input_default := JUndef |});
         ("year1_months",
          {| input_sheet := "Assumptions.1"; input_cell := "F84"; input_default := JUndef |}) ];
     sheets :=
       [ ("Assumptions.1",
          {| static_values :=
               Some [ {| static_cell := "I31"; static_value := JInt 111 |};
                      {| static_cell := "F84"; static_value := JInt 10 |} ];
             formulas := [] |}) ] |}.

Definition static_over_input_data : FormData :=
  {| fields := <["marketing_expenses" := JInt 5]> (<["year1_months" := JInt 7]> ∅);
     excelData_field := None |}.

Definition no_rent_workbook : ExcelData := {| inputs := []; sheets := [] |}.

(** The caller supplies a monthly rent of 0. *)
Definition zero_rent_data : FormData :=
  {| fields := <["monthly_rent" := JInt 0]> ∅; excelData_field := None |}.


Definition no_form_data : FormData := {| fields := ∅; excelData_field := None |}.




(** Assumptions.1 holds a static value at C5 and a formula that references
    the formula cell C5 of the sheet wc, which is processed later. *)
Definition forward_reference_workbook : ExcelData :=
  {| inputs := [];
     sheets :=
       [ ("Assumptions.1",
          {| static_values := Some [ {| static_cell := "C5"; static_value := JInt 7 |} ];
             formulas := [ {| formula_cell := "A1"; formula_text := "wc!C5" |} ] |});
         ("wc",
          {| static_values := None;
             formulas := [ {| formula_cell := "C5"; formula_text := "1+1" |} ] |}) ] |}.

Definition forward_reference_result : engine :=
  calculateAll forward_reference_workbook
    (setInputs forward_reference_workbook no_form_data new_engine).

(** Sheet B reads a static value of sheet A through a qualified reference. *)
Definition two_sheet_workbook : ExcelData :=
  {| inputs := [];
     sheets :=
       [ ("A", {| static_values := Some [ {| static_cell := "C5"; static_value := JInt 10 |} ];
                  formulas := [] |});
         ("B", {| static_values := None;
                  formulas := [ {| formula_cell := "D1"; formula_text := "A!C5*2" |} ] |}) ] |}.

Definition sum_example_cells : gmap string jsval :=
  store_set "wc" "C12" (JInt 15)
    (store_set "wc" "C11" (JStr "abc")
       (store_set "wc" "C10" (JInt 5) ∅)).

(** Formulas whose results are not finite numbers, and one that reads a
    stored [NaN]. *)
Definition odd_values_workbook : ExcelData :=
  {| inputs := [];
     sheets :=
       [ ("Assumptions.1",
          {| static_values := None;
             formulas := [ {| formula_cell := "A1"; formula_text := "0/0" |};
                           {| formula_cell := "B1"; formula_text := "1/0" |};
                           {| formula_cell := "C1"; formula_text := "1>0" |};
                           {| formula_cell := "D1"; formula_text := "" |};
                           {| formula_cell := "E1"; formula_text := "A1+1" |} ] |}) ] |}.

Definition odd_values_result : engine :=
  calculateAll odd_values_workbook
    (setInputs odd_values_workbook no_form_data new_engine).

(** A workbook with one declared input, whose default is 12. *)
Definition default_workbook : ExcelData :=
  {| inputs :=
       [ ("year1_months",
          {| input_sheet := "Assumptions.1"; input_cell := "F10"; input_default := JInt 12 |}) ];
     sheets := [] |}.

(** The caller supplies the input as [null]. *)
Definition null_months_data : FormData :=
  {| fields := <["year1_months" := JNull]> ∅; excelData_field := None |}.

(** The caller supplies a monthly rent under its legacy key. *)
Definition rent_only_data : FormData :=
  {| fields := <["monthly_rent" := JInt 8000]> ∅; excelData_field := None |}.

(** The caller supplies the electricity charges as [null]. *)
Definition null_electricity_data : FormData :=
  {| fields := <["electricity" := JNull]> ∅; excelData_field := None |}.

(** [odd_values_workbook] with one more sheet, of a name that [sheetOrder]
    does not list, placed first. *)
Definition unlisted_sheet_workbook : ExcelData :=
  {| inputs := inputs odd_values_workbook;
     sheets :=
       ("Summary", {| static_values := None;
                      formulas := [ {| formula_cell := "A1"; formula_text := "1+1" |} ] |})
       :: sheets odd_values_workbook |}.

(** A workbook whose only sheet is an empty wc. *)
Definition wc_only_workbook : ExcelData :=
  {| inputs := [];
     sheets := [ ("wc", {| static_values := None; formulas := [] |}) ] |}.

(** A store in which row 8 of wc holds a number, a string, [NaN], an
    infinity and nothing. *)
Definition mixed_row_engine : engine :=
  setCellValue "wc" "F8" (JNum PInf)
    (setCellValue "wc" "E8" (JNum NaN)
       (setCellValue "wc" "D8" (JStr "n/a")
          (setCellValue "wc" "C8" (JInt 250) new_engine))).

(** ** Lemmas and theorems *)

Lemma store_set_lookup sheetName cell value (cells : gmap string jsval) key :
  store_set sheetName cell value cells !! key =
  if touches key (write_to sheetName cell value) then Some value else cells !! key.
Proof.
  unfold store_set, touches; simpl.
  destruct (String.eqb key cell) eqn:Hc; simpl.
  - apply String.eqb_eq in Hc. subst. by rewrite lookup_insert_eq.
  - apply String.eqb_neq in Hc. rewrite lookup_insert_ne by congruence.
    destruct (String.eqb key (qualified sheetName cell)) eqn:Hq.
    + apply String.eqb_eq in Hq. subst. by rewrite lookup_insert_eq.
    + apply String.eqb_neq in Hq. by rewrite lookup_insert_ne.
Qed.

Lemma apply_write_lookup (cells : gmap string jsval) w key :
  apply_write cells w !! key = if touches key w then Some (w_value w) else cells !! key.
Proof. destruct w. apply store_set_lookup. Qed.

Lemma apply_writes_lookup ws (cells : gmap string jsval) key :
  apply_writes ws cells !! key =
  match last_touch key ws with
  | Some v => Some v
  | None => cells !! key
  end.
Proof.
  revert cells. induction ws as [|w ws IH]; intros cells; simpl; [done|].
  unfold apply_writes in *. simpl. rewrite IH.
  destruct (last_touch key ws); [done|].
  rewrite apply_write_lookup. by destruct (touches key w).
Qed.

Lemma last_touch_app key ws1 ws2 :
  last_touch key (ws1 ++ ws2) =
  match last_touch key ws2 with
  | Some v => Some v
  | None => last_touch key ws1
  end.
Proof.
  induction ws1 as [|w ws1 IH]; simpl.
  - by destruct (last_touch key ws2).
  - rewrite IH. by destruct (last_touch key ws2).
Qed.

(** *** The alias loop and the unit heuristics, key by key *)

Lemma prop_insert (obj : gmap string jsval) k v k' :
  prop (<[k := v]> obj) k' = if String.eqb k k' then v else prop obj k'.
Proof.
  unfold prop. destruct (String.eqb k k') eqn:E.
  - apply String.eqb_eq in E. subst. by rewrite lookup_insert_eq.
  - apply String.eqb_neq in E. by rewrite lookup_insert_ne.
Qed.

Lemma apply_alias_other inputData nd names k :
  snd names <> k -> prop (apply_alias inputData nd names) k = prop nd k.
Proof.
  destruct names as [o n]; simpl; intros Hne. unfold apply_alias.
  destruct (not_nullish (prop inputData o)); [|done].
  rewrite prop_insert. apply String.eqb_neq in Hne. by rewrite Hne.
Qed.

Lemma fold_alias_other inputData mapping nd k :
  k ∉ map snd mapping ->
  prop (fold_left (apply_alias inputData) mapping nd) k = prop nd k.
Proof.
  revert nd. induction mapping as [|names mapping IH]; intros nd Hk; simpl; [done|].
  simpl in Hk. apply not_elem_of_cons in Hk as [Hne Hk].
  rewrite IH by done. by apply apply_alias_other.
Qed.

Lemma fold_alias_supplied inputData mapping nd oldName newName :
  NoDup (map snd mapping) ->
  (oldName, newName) ∈ mapping ->
  not_nullish (prop inputData oldName) = true ->
  prop (fold_left (apply_alias inputData) mapping nd) newName = prop inputData oldName.
Proof.
  revert nd. induction mapping as [|names mapping IH]; intros nd Hnd Hin Hv; simpl.
  { by apply elem_of_nil in Hin. }
  simpl in Hnd. apply NoDup_cons in Hnd as [Hfresh Hnd].
  apply elem_of_cons in Hin as [<-|Hin].
  - simpl in Hfresh. rewrite fold_alias_other by done.
    unfold apply_alias. rewrite Hv, prop_insert. by rewrite String.eqb_refl.
  - by apply IH.
Qed.

Lemma rescale_if_above_prop key limit f nd k :
  prop (rescale_if_above key limit f nd) k =
  if String.eqb key k
  then (let v := prop nd k in if truthy v && js_gt v (JInt limit) then f v else v)
  else prop nd k.
Proof.
  unfold rescale_if_above.
  destruct (String.eqb key k) eqn:E.
  - apply String.eqb_eq in E. subst k. simpl.
    destruct (truthy (prop nd key) && js_gt (prop nd key) (JInt limit)); [|done].
    rewrite prop_insert. by rewrite String.eqb_refl.
  - destruct (truthy (prop nd key) && js_gt (prop nd key) (JInt limit)); [|done].
    rewrite prop_insert. by rewrite E.
Qed.

Lemma convert_units_prop nd k :
  prop (convert_units nd) k = unit_rule k (prop nd k).
Proof.
  unfold convert_units, unit_rule. rewrite !rescale_if_above_prop.
  rewrite !(String.eqb_sym k).
  destruct (String.eqb "other_expenses" k) eqn:E1;
    [apply String.eqb_eq in E1; subst k; reflexivity|].
  destruct (String.eqb "growth_rate" k) eqn:E2;
    [apply String.eqb_eq in E2; subst k; reflexivity|].
  destruct (String.eqb "rent" k) eqn:E3;
    [apply String.eqb_eq in E3; subst k; reflexivity|].
  destruct (String.eqb "conversion_charges" k) eqn:E4;
    [apply String.eqb_eq in E4; subst k; reflexivity|].
  destruct (String.eqb "processing_fee" k) eqn:E5;
    [apply String.eqb_eq in E5; subst k; reflexivity|].
  destruct (String.eqb "proposed_roi" k) eqn:E6;
    [apply String.eqb_eq in E6; subst k; reflexivity|].
  reflexivity.
Qed.

Lemma fieldNameMapping_targets_distinct : NoDup (map snd fieldNameMapping).
Proof.
  apply (bool_decide_unpack _). vm_compute. exact I.
Qed.

Lemma unit_rule_not_nullish key v :
  not_nullish v = true -> not_nullish (unit_rule key v) = true.
Proof.
  intros Hv. unfold unit_rule, as_fraction, as_multiplier, js_div, js_add.
  repeat match goal with |- context [if ?b then _ else _] => destruct b end;
    done.
Qed.

Lemma not_nullish_not_undefined v : not_nullish v = true -> not_undefined v = true.
Proof. by destruct v. Qed.

Lemma input_write_declared nd key inputDef (items : list (string * InputDefinition)) :
  (key, inputDef) ∈ items ->
  not_nullish (prop nd key) = true ->
  write_to (input_sheet inputDef) (input_cell inputDef) (prop nd key)
    ∈ concat (map (input_write nd) items).
Proof.
  intros Hin Hv. apply list_elem_of_In, in_concat.
  exists (input_write nd (key, inputDef)). split.
  - apply in_map. by apply list_elem_of_In.
  - unfold input_write. rewrite (not_nullish_not_undefined _ Hv), Hv. by left.
Qed.

Lemma input_writes_origin nd (items : list (string * InputDefinition)) w :
  w ∈ concat (map (input_write nd) items) ->
  exists key inputDef,
    (key, inputDef) ∈ items
    /\ w_sheet w = input_sheet inputDef /\ w_cell w = input_cell inputDef.
Proof.
  intros Hw. apply list_elem_of_In, in_concat in Hw as (ws & Hws & Hw).
  apply in_map_iff in Hws as ([key inputDef] & <- & Hitem).
  exists key, inputDef. split; [by apply list_elem_of_In|].
  unfold input_write in Hw.
  destruct (not_nullish _); simpl in Hw; [|done].
  destruct Hw as [<-|[]]. done.
Qed.

(** *** C2 *)

(** C2, as stated, fails: with both keys supplied it is the alias's value
    that reaches the canonical cell C3, not the canonical key's; and an alias
    supplied alone as the percentage 12 reaches its canonical cell C9 as
    0.12, not as the value supplied. *)
Lemma canonical_key_does_not_win :
  prop (inputData_of both_names_supplied) "applicant_name" = JStr "New Co"
  /\ input_writes alias_workbook (normalize both_names_supplied)
     = [write_to "Assumptions.1" "C3" (JStr "Old Co")]
  /\ input_writes alias_workbook (normalize alias_only_supplied)
     = [write_to "Assumptions.1" "C9" (JNum (Fin (3 # 25)))].
Proof. repeat split; vm_compute; reflexivity. Qed.

(** C2, amended: an alias supplied with a value other than [null] and
    [undefined] replaces whatever the canonical key holds in the normalized
    data, whether or not the caller supplied the canonical key too (the alias
    wins); after the unit heuristic of the canonical key, that value is what
    the generic mapping writes to the canonical input's declared cell; and
    the generic mapping writes only to cells of declared input keys. *)
Theorem alias_value_reaches_canonical_cell
    (wb : ExcelData) (formData : FormData) (oldName newName : string)
    (inputDef : InputDefinition) :
  (oldName, newName) ∈ fieldNameMapping ->
  (newName, inputDef) ∈ inputs wb ->
  not_nullish (prop (inputData_of formData) oldName) = true ->
  let supplied := prop (inputData_of formData) oldName in
  prop (map_field_names (inputData_of formData)) newName = supplied
  /\ prop (normalize formData) newName = unit_rule newName supplied
  /\ write_to (input_sheet inputDef) (input_cell inputDef) (unit_rule newName supplied)
       ∈ input_writes wb (normalize formData)
  /\ (forall w, w ∈ input_writes wb (normalize formData) ->
        exists key def, (key, def) ∈ inputs wb
          /\ w_sheet w = input_sheet def /\ w_cell w = input_cell def).
Proof.
  intros Halias Hdecl Hv supplied.
  assert (Hmapped : prop (map_field_names (inputData_of formData)) newName = supplied).
  { unfold map_field_names.
    by apply fold_alias_supplied; [apply fieldNameMapping_targets_distinct| |]. }
  assert (Hnorm : prop (normalize formData) newName = unit_rule newName supplied).
  { unfold normalize. by rewrite convert_units_prop, Hmapped. }
  split; [done|]. split; [done|]. split.
  - rewrite <- Hnorm. apply input_write_declared; [done|].
    rewrite Hnorm. by apply unit_rule_not_nullish.
  - intros w Hw. by apply input_writes_origin in Hw.
Qed.

Lemma alias_value_reaches_canonical_cell_witness :
  prop (map_field_names (inputData_of both_names_supplied)) "applicant_name" = JStr "Old Co"
  /\ write_to "Assumptions.1" "C3" (JStr "Old Co")
       ∈ input_writes alias_workbook (normalize both_names_supplied).
Proof.
  pose proof (alias_value_reaches_canonical_cell alias_workbook both_names_supplied
                "company_name" "applicant_name"
                {| input_sheet := "Assumptions.1"; input_cell := "C3";
                   input_default := JUndef |}) as H.
  destruct H as (H1 & _ & H3 & _).
  - apply list_elem_of_In. simpl. tauto.
  - apply list_elem_of_In. simpl. tauto.
  - reflexivity.
  - split; [exact H1 | exact H3].
Defined.

(** *** C9 *)

(** C9, as stated, fails for the pinned cells: Assumptions.1!F84 carries the
    declared static value 10 and is the mapped cell of the supplied input
    [year1_months], yet when [setInputs] completes the store holds 12. *)
Lemma pinned_cell_loses_static_value :
  last_touch "Assumptions.1!F84" (static_writes static_over_input_workbook)
    = Some (JInt 10)
  /\ write_to "Assumptions.1" "F84" (JInt 7)
       ∈ input_writes static_over_input_workbook (normalize static_over_input_data)
  /\ calculatedCells
       (setInputs static_over_input_workbook static_over_input_data new_engine)
       !! "Assumptions.1!F84" = Some (JInt 12).
Proof.
  split; [vm_compute; reflexivity|].
  split; [|vm_compute; reflexivity].
  apply list_elem_of_In. vm_compute. tauto.
Qed.

(** C9, amended: within one [setInputs] run the declared static values are
    written after the named-input mapping and after the overrides for I28 to
    I31 and I35, and before the pinned cells F84 and F72 to F76; so a key
    under which a declared static value (not [null]) is stored, and which is
    not a key of a pinned cell, holds the last static value declared for it
    when [setInputs] completes, whatever the inputs and overrides wrote. *)
Theorem static_values_replace_inputs
    (wb : ExcelData) (formData : FormData) (e : engine) (key : string) (v : jsval) :
  last_touch key (static_writes wb) = Some v ->
  last_touch key fix_writes = None ->
  (exists normalizedData,
     setInputs_writes wb formData
     = (input_writes wb normalizedData ++ override_writes normalizedData
        ++ static_writes wb ++ fix_writes)%list)
  /\ calculatedCells (setInputs wb formData e) !! key = Some v.
Proof.
  intros Hstatic Hfix. split; [by eexists|].
  unfold setInputs, setInputs_writes; cbn [calculatedCells].
  rewrite apply_writes_lookup; do 3 rewrite last_touch_app. by rewrite Hfix, Hstatic.
Qed.

Lemma static_values_replace_inputs_witness :
  calculatedCells
    (setInputs static_over_input_workbook static_over_input_data new_engine)
    !! "Assumptions.1!I31" = Some (JInt 111).
Proof.
  apply (static_values_replace_inputs static_over_input_workbook
           static_over_input_data new_engine "Assumptions.1!I31" (JInt 111));
    reflexivity.
Defined.

(** *** C10 *)

Lemma normalize_keeps_monthly_rent formData :
  prop (normalize formData) "monthly_rent" = prop (inputData_of formData) "monthly_rent".
Proof.
  unfold normalize. rewrite convert_units_prop.
  unfold map_field_names. rewrite fold_alias_other; [reflexivity|].
  apply (bool_decide_unpack _). vm_compute. exact I.
Qed.

(** C10, as stated, fails when the supplied monthly rent is present but
    falsy: a supplied 0 is written to I28 as 7500. *)
Lemma zero_rent_is_replaced :
  fields zero_rent_data !! "monthly_rent" = Some (JInt 0)
  /\ calculatedCells (setInputs no_rent_workbook zero_rent_data new_engine)
       !! "Assumptions.1!I28" = Some (JInt 7500).
Proof. split; vm_compute; reflexivity. Qed.

(** C10, amended: on every run [setInputs] writes Assumptions.1!I28, to the
    supplied [monthly_rent] if that value is truthy and to 7500 otherwise
    (also when a falsy value such as 0 is supplied); and, after the static
    values are loaded, it writes F84 = 12 and F72 to F76 = 0 on
    Assumptions.1, which therefore hold these values when it completes,
    whatever the workbook declares and the caller supplies. *)
Theorem pinned_cells_always_written
    (wb : ExcelData) (formData : FormData) (e : engine) :
  let supplied := prop (inputData_of formData) "monthly_rent" in
  let final := calculatedCells (setInputs wb formData e) in
  write_to "Assumptions.1" "I28" (if truthy supplied then supplied else JInt 7500)
    ∈ setInputs_writes wb formData
  /\ (exists before,
        setInputs_writes wb formData = (before ++ static_writes wb ++ fix_writes)%list)
  /\ final !! "Assumptions.1!F84" = Some (JInt 12)
  /\ Forall (fun cell => final !! qualified "Assumptions.1" cell = Some (JInt 0))
       ["F72"; "F73"; "F74"; "F75"; "F76"].
Proof.
  intros supplied final. split; [|split; [|split]].
  - unfold setInputs_writes, override_writes, monthlyRentAmount, js_or.
    rewrite normalize_keeps_monthly_rent. fold supplied.
    rewrite !elem_of_app, elem_of_cons. tauto.
  - unfold setInputs_writes. eexists. by rewrite !app_assoc.
  - unfold final, setInputs, setInputs_writes; cbn [calculatedCells].
    rewrite apply_writes_lookup; do 3 rewrite last_touch_app. reflexivity.
  - unfold final, setInputs, setInputs_writes; cbn [calculatedCells].
    repeat constructor;
      rewrite apply_writes_lookup; do 3 rewrite last_touch_app; reflexivity.
Qed.

(** *** The evaluator leaves the engine as it found it *)

Lemma guard_restored (guard : gset string) (key : string) :
  key ∉ guard -> (guard ∪ {[key]}) ∖ {[key]} = guard.
Proof.
  intros Hfresh. apply set_eq. intros x.
  rewrite elem_of_difference, elem_of_union, elem_of_singleton.
  split; [tauto|]. intros Hx. split; [tauto|]. by intros ->.
Qed.

Lemma evaluateFormulaWith_unguarded ev formula sheetName cellAddress e :
  qualified sheetName cellAddress ∉ processing e ->
  evaluateFormulaWith ev formula sheetName cellAddress e
  = (value_or_zero (ev (rewrite_formula (calculatedCells e) sheetName formula)), e).
Proof.
  intros Hfree. unfold evaluateFormulaWith.
  rewrite bool_decide_eq_false_2 by done.
  destruct e as [cells guard]; cbn [calculatedCells processing with_processing] in *.
  rewrite guard_restored by done. by destruct (ev _).
Qed.

Lemma evaluateFormulaWith_engine ev formula sheetName cellAddress e :
  snd (evaluateFormulaWith ev formula sheetName cellAddress e) = e.
Proof.
  destruct (decide (qualified sheetName cellAddress ∈ processing e)) as [Hin|Hout].
  - unfold evaluateFormulaWith. by rewrite bool_decide_eq_true_2.
  - by rewrite evaluateFormulaWith_unguarded.
Qed.


Lemma calculateFormula_eq ev sheetName e formulaDef :
  calculateFormula ev sheetName e formulaDef
  = setCellValue sheetName (formula_cell formulaDef)
      (fst (evaluateFormulaWith ev (formula_text formulaDef) sheetName
              (formula_cell formulaDef) e)) e.
Proof.
  unfold calculateFormula.
  pose proof (evaluateFormulaWith_engine ev (formula_text formulaDef) sheetName
                (formula_cell formulaDef) e) as Heng.
  destruct (evaluateFormulaWith _ _ _ _ _) as [result e']. simpl in *. by subst.
Qed.



Lemma reachable_formulas ev wb formData sheetName sheet fs e :
  entry sheetName (sheets wb) = Some sheet ->
  (forall f, f ∈ fs -> f ∈ formulas sheet) ->
  reachable ev wb formData e ->
  reachable ev wb formData (fold_left (calculateFormula ev sheetName) fs e).
Proof.
  intros Hsheet. revert e. induction fs as [|f fs IH]; intros e Hfs He; simpl; [done|].
  apply IH.
  - intros f' Hf'. apply Hfs. by right.
  - apply (reach_formula _ _ _ _ _ sheet); [done| |done]. apply Hfs. by left.
Qed.

Lemma reachable_sheet ev wb formData sheetName e :
  reachable ev wb formData e ->
  reachable ev wb formData (calculateSheetWith ev wb e sheetName).
Proof.
  intros He. unfold calculateSheetWith.
  destruct (entry sheetName (sheets wb)) as [sheet|] eqn:Hsheet; [|done].
  by apply (reachable_formulas _ _ _ _ sheet).
Qed.

(** Every state a run passes through between two sheets is reachable. *)
Lemma reachable_run ev wb formData order :
  reachable ev wb formData
    (calculateSheetsWith ev wb order (setInputs wb formData new_engine)).
Proof.
  unfold calculateSheetsWith.
  generalize (reach_inputs ev wb formData).
  generalize (setInputs wb formData new_engine).
  induction order as [|sheetName order IH]; intros e He; simpl; [done|].
  apply IH. by apply reachable_sheet.
Qed.

(** *** C1 *)




(** *** C4 *)








(** A stored -5 makes the rewritten text of A1-B1 malformed (3--5); calling
    the result of a call is a type error; a name the library lacks is a
    reference error.  Each formula yields 0. *)
Example failing_formulas_yield_zero :
  let cells := store_set "wc" "B1" (JInt (-5)) (store_set "wc" "A1" (JInt 3) ∅) in
  let e := {| calculatedCells := cells; processing := ∅ |} in
  rewrite_formula cells "wc" "A1-B1" = "3--5"
  /\ fst (evaluateFormula "A1-B1" "wc" "C1" e) = JInt 0
  /\ fst (evaluateFormula "SUM(A1)(B1)" "wc" "C1" e) = JInt 0
  /\ fst (evaluateFormula "SUMIF(A1)" "wc" "C1" e) = JInt 0.
Proof. repeat split; vm_compute; reflexivity. Qed.

(** *** C3 *)

Lemma entry_In {A : Type} key (entries : list (string * A)) a :
  entry key entries = Some a -> In (key, a) entries.
Proof.
  induction entries as [|[k a'] entries IH]; simpl; [done|].
  destruct (String.eqb k key) eqn:E.
  - apply String.eqb_eq in E. intros [= ->]. subst. by left.
  - intros H. right. by apply IH.
Qed.

Lemma calculateFormula_other ev sheetName e formulaDef key :
  touches key (write_to sheetName (formula_cell formulaDef) JUndef) = false ->
  calculatedCells (calculateFormula ev sheetName e formulaDef) !! key
  = calculatedCells e !! key.
Proof.
  intros Hfree. rewrite calculateFormula_eq. cbn [setCellValue calculatedCells].
  rewrite store_set_lookup. unfold touches in *. cbn [write_to w_cell w_sheet] in *.
  by rewrite Hfree.
Qed.

Lemma formula_free_spec wb key sheetName sheet formulaDef :
  formula_free wb key = true ->
  entry sheetName (sheets wb) = Some sheet ->
  formulaDef ∈ formulas sheet ->
  touches key (write_to sheetName (formula_cell formulaDef) JUndef) = false.
Proof.
  unfold formula_free. rewrite forallb_forall. intros Hfree Hsheet Hin.
  specialize (Hfree _ (entry_In _ _ _ Hsheet)). simpl in Hfree.
  rewrite forallb_forall in Hfree.
  apply list_elem_of_In in Hin. specialize (Hfree _ Hin).
  by apply negb_true_iff in Hfree.
Qed.

Lemma reachable_keeps_key ev wb formData e key :
  formula_free wb key = true ->
  reachable ev wb formData e ->
  calculatedCells e !! key
  = calculatedCells (setInputs wb formData new_engine) !! key.
Proof.
  intros Hfree. induction 1 as [|e sheetName sheet formulaDef Hsheet Hin _ IH];
    [reflexivity|].
  rewrite calculateFormula_other; [done|].
  by apply (formula_free_spec wb key sheetName sheet).
Qed.

(** C3, as stated, fails in its last part: the reference wc!C5 to a formula
    result on the not-yet-processed sheet wc reads 7, the value another
    sheet stored under the bare address C5, not 0. *)
Lemma forward_reference_is_not_zero :
  getCellValue forward_reference_result "Assumptions.1" "A1" = JInt 7
  /\ getCellValue forward_reference_result "wc" "C5" = JInt 2.
Proof. split; vm_compute; reflexivity. Qed.

(** C3, amended: the static values of every sheet are stored by [setInputs],
    before any formula is evaluated; a static value that the static phase
    leaves under a qualified key which no formula of the workbook writes is
    what that key reads in every state of the run, in whatever order sheets
    and formulas are processed.  A reference whose qualified key is not in
    the store (a formula result on a not-yet-processed sheet, for one) reads
    the value stored under the bare address, whichever sheet wrote it, and 0
    only when the bare address has not been written either. *)
Theorem static_values_readable_in_any_order
    (ev : string -> outcome) (wb : ExcelData) (formData : FormData)
    (sheetName cell : string) (v : jsval) :
  last_touch (qualified sheetName cell) (static_writes wb ++ fix_writes) = Some v ->
  formula_free wb (qualified sheetName cell) = true ->
  (forall e, reachable ev wb formData e -> getCellValue e sheetName cell = v)
  /\ (forall order,
        getCellValue (calculateSheetsWith ev wb order (setInputs wb formData new_engine))
          sheetName cell = v)
  /\ (forall (e : engine) s c,
        calculatedCells e !! qualified s c = None ->
        getCellValue e s c = default (JInt 0) (calculatedCells e !! c)).
Proof.
  intros Hstatic Hfree.
  assert (Hall : forall e, reachable ev wb formData e -> getCellValue e sheetName cell = v).
  { intros e He. unfold getCellValue, store_get.
    rewrite (reachable_keeps_key ev wb formData e _ Hfree He).
    unfold setInputs, setInputs_writes; cbn [calculatedCells].
    rewrite apply_writes_lookup. do 2 rewrite last_touch_app.
    by rewrite Hstatic. }
  split; [done|]. split.
  - intros order. apply Hall, reachable_run.
  - intros e s c Hnone. unfold getCellValue, store_get. rewrite Hnone.
    by destruct (calculatedCells e !! c).
Qed.

Lemma static_values_readable_in_any_order_witness :
  getCellValue
    (calculateSheets two_sheet_workbook ["B"; "A"]
       (setInputs two_sheet_workbook no_form_data new_engine)) "A" "C5" = JInt 10.
Proof.
  apply (proj1 (proj2 (static_values_readable_in_any_order js_eval two_sheet_workbook
                         no_form_data "A" "C5" (JInt 10) eq_refl eq_refl))).
Defined.

(** The two orders of the two sheets give sheet B's formula the same result. *)
Example static_reference_either_order :
  let start := setInputs two_sheet_workbook no_form_data new_engine in
  getCellValue (calculateSheets two_sheet_workbook ["A"; "B"] start) "B" "D1" = JInt 20
  /\ getCellValue (calculateSheets two_sheet_workbook ["B"; "A"] start) "B" "D1" = JInt 20.
Proof. split; vm_compute; reflexivity. Qed.

(** *** Scanning lemmas *)

Lemma digit_not_upper c : is_digit c = true -> is_upper c = false.
Proof.
  unfold is_digit, is_upper, in_range. intros H.
  apply andb_prop in H as [H1 H2].
  apply N.leb_le in H1, H2. apply andb_false_iff. left. apply N.leb_gt. lia.
Qed.

Lemma append_cons c (s t : string) : String c s ++ t = String c (s ++ t).
Proof. reflexivity. Qed.

Lemma append_empty_l (t : string) : EmptyString ++ t = t.
Proof. reflexivity. Qed.

Lemma append_empty_r (s : string) : s ++ EmptyString = s.
Proof. induction s as [|c s IH]; [reflexivity|]. by rewrite append_cons, IH. Qed.

Lemma span_spec p s a b :
  span p s = (a, b) ->
  s = a ++ b /\ all_chars p a = true /\ JsEval.starts_with p b = false.
Proof.
  revert a b. induction s as [|c s IH]; intros a b; simpl.
  - intros [= <- <-]. done.
  - destruct (p c) eqn:Hc.
    + destruct (span p s) as [a' b'] eqn:Hs. intros [= <- <-].
      destruct (IH _ _ eq_refl) as (-> & Ha & Hb).
      rewrite append_cons. simpl. by rewrite Hc.
    + intros [= <- <-]. rewrite append_empty_l. simpl. by rewrite Hc.
Qed.

Lemma span_app p a b :
  all_chars p a = true -> JsEval.starts_with p b = false -> span p (a ++ b) = (a, b).
Proof.
  intros Ha Hb. induction a as [|c a IH].
  - rewrite append_empty_l. destruct b as [|c b]; simpl in *; [done|]. by rewrite Hb.
  - simpl in Ha. apply andb_prop in Ha as [Hc Ha].
    rewrite append_cons. simpl. by rewrite Hc, IH.
Qed.

Lemma cell_at_spec s col row rest :
  cell_at s = Some (col, row, rest) ->
  s = col ++ row ++ rest
  /\ all_chars is_upper col = true /\ is_empty col = false
  /\ all_chars is_digit row = true /\ is_empty row = false
  /\ JsEval.starts_with is_digit rest = false.
Proof.
  unfold cell_at. destruct (span is_upper s) as [u r1] eqn:Hu.
  destruct (is_empty u) eqn:Hue; [done|].
  destruct (span is_digit r1) as [d r2] eqn:Hd.
  destruct (is_empty d) eqn:Hde; [done|].
  intros [= <- <- <-].
  apply span_spec in Hu as (-> & Hu1 & _).
  apply span_spec in Hd as (-> & Hd1 & Hd2). done.
Qed.

Lemma cell_at_exact col row :
  all_chars is_upper col = true -> is_empty col = false ->
  all_chars is_digit row = true -> is_empty row = false ->
  cell_at (col ++ row) = Some (col, row, EmptyString).
Proof.
  intros Hu Hue Hd Hde. unfold cell_at.
  rewrite (span_app is_upper col row Hu).
  - rewrite Hue.
    assert (Hrow : span is_digit row = (row, EmptyString)).
    { rewrite <- (append_empty_r row) at 1. by apply span_app. }
    by rewrite Hrow, Hde.
  - destruct row as [|c row]; simpl in *; [done|].
    apply andb_prop in Hd as [Hc _]. by apply digit_not_upper.
Qed.

Lemma match_cell_head s col row rest :
  cell_at s = Some (col, row, rest) -> match_cell s = Some (col, row).
Proof.
  intros H. destruct s as [|c s]; [discriminate H|].
  cbn [match_cell]. by rewrite H.
Qed.

(** *** C6 *)

Lemma range_loop_spec cells sheetName col count row values :
  range_loop cells sheetName col count row values
  = (values
     ++ omap (fun r => range_member (store_get cells sheetName (col ++ decimal r)))
          (map (fun i => (row + N.of_nat i)%N) (seq 0 count)))%list.
Proof.
  revert row values. induction count as [|k IH]; intros row values.
  - simpl. by rewrite app_nil_r.
  - cbn [range_loop]. rewrite IH. cbn [seq map omap list_omap].
    replace (row + N.of_nat 0)%N with row by lia.
    rewrite <- seq_shift, map_map.
    assert (Hshift : map (fun i => (row + N.of_nat (S i))%N) (seq 0 k)
                     = map (fun i => (row + 1 + N.of_nat i)%N) (seq 0 k)).
    { apply map_ext. intros i. lia. }
    rewrite Hshift. unfold range_member at 2.
    destruct (store_get cells sheetName (col ++ decimal row)) as [n| | | | |];
      try reflexivity.
    destruct (Num.is_nan n); [reflexivity|]. by rewrite <- app_assoc.
Qed.

Lemma evaluateRange_spec cells sheetName startCol startRow endCol endRow :
  all_chars is_upper startCol = true -> is_empty startCol = false ->
  all_chars is_digit startRow = true -> is_empty startRow = false ->
  all_chars is_upper endCol = true -> is_empty endCol = false ->
  all_chars is_digit endRow = true -> is_empty endRow = false ->
  evaluateRange cells (startCol ++ startRow) (endCol ++ endRow) sheetName
  = numeric_cells cells sheetName startCol (parseInt startRow) (parseInt endRow).
Proof.
  intros. unfold evaluateRange.
  rewrite (match_cell_head _ startCol startRow EmptyString) by by apply cell_at_exact.
  rewrite (match_cell_head _ endCol endRow EmptyString) by by apply cell_at_exact.
  by rewrite range_loop_spec.
Qed.



(** *** C7 *)

Lemma all_chars_app p (a b : string) :
  all_chars p (a ++ b) = all_chars p a && all_chars p b.
Proof.
  induction a as [|c a IH]; [reflexivity|].
  rewrite append_cons. simpl. by rewrite IH, andb_assoc.
Qed.









Lemma cell_at_not_upper c s : is_upper c = false -> cell_at (String c s) = None.
Proof. intros Hc. unfold cell_at. simpl. by rewrite Hc. Qed.








Section RangePass.

Variable cells : gmap string jsval.
Variable sheetName : string.





End RangePass.


(** A row with nothing stored reads as 0, a number, and is a member. *)
Example absent_cell_is_a_zero_member :
  numeric_cells sum_example_cells "wc" "C" 9 12 = [Fin 0; Fin 5; Fin 15].
Proof. vm_compute. reflexivity. Qed.

(** With the passes in the other order the range C10:C12 would be taken
    apart into the two references C10 and C12. *)
Example bare_pass_first_breaks_ranges :
  substitute_references sum_example_cells "wc" "SUM(C10:C12)" = "SUM([5,15])"
  /\ replace_ranges sum_example_cells "wc"
       (replace_bare sum_example_cells "wc" "SUM(C10:C12)") = "SUM(5:15)".
Proof. split; vm_compute; reflexivity. Qed.

(** *** C8 *)

Lemma range_loop_no_nan cells sheetName col count row values :
  Forall (fun n => Num.is_nan n = false) values ->
  Forall (fun n => Num.is_nan n = false)
         (range_loop cells sheetName col count row values).
Proof.
  revert row values. induction count as [|k IH]; intros row values Hvalues; [done|].
  cbn [range_loop]. apply IH.
  destruct (store_get cells sheetName (col ++ decimal row)) as [n| | | | |]; try done.
  destruct (Num.is_nan n) eqn:Hn; [done|].
  apply Forall_app. split; [done|]. by repeat constructor.
Qed.

Lemma evaluateRange_no_nan cells startCell endCell sheetName :
  Forall (fun n => Num.is_nan n = false) (evaluateRange cells startCell endCell sheetName).
Proof.
  unfold evaluateRange.
  destruct (match_cell startCell) as [[startCol startDigits]|]; [|constructor].
  destruct (match_cell endCell) as [[endCol endDigits]|]; [|constructor].
  apply range_loop_no_nan. constructor.
Qed.

Lemma numbers_of_no_nan args :
  Forall (fun n => Num.is_nan n = false) (excelFunctions.numbers_of args).
Proof.
  unfold excelFunctions.numbers_of. apply Forall_forall. intros n Hn.
  apply list_elem_of_omap in Hn as (v & _ & Hv).
  destruct v as [m| | | | |]; try done.
  destruct (Num.is_nan m) eqn:Hm; [done|]. by injection Hv as <-.
Qed.

Lemma store_get_set sheetName cell value (cells : gmap string jsval) :
  store_get (store_set sheetName cell value cells) sheetName cell = value.
Proof.
  unfold store_get. rewrite store_set_lookup.
  unfold touches; cbn [write_to w_cell w_sheet].
  by rewrite String.eqb_refl, orb_true_r.
Qed.

(** C8, as stated, fails: the state a run ends in holds [NaN], [Infinity],
    a boolean and [undefined], so not every stored value is a finite number
    or a string; and the formula A1+1 reads the stored [NaN] as [NaN], not
    as 0 (its result would be 1). *)
Lemma store_holds_other_values :
  reachable js_eval odd_values_workbook no_form_data odd_values_result
  /\ calculatedCells odd_values_result !! "Assumptions.1!A1" = Some (JNum NaN)
  /\ calculatedCells odd_values_result !! "Assumptions.1!B1" = Some (JNum PInf)
  /\ calculatedCells odd_values_result !! "Assumptions.1!C1" = Some (JBool true)
  /\ calculatedCells odd_values_result !! "Assumptions.1!D1" = Some JUndef
  /\ ~ map_Forall (fun _ v => finite_number_or_string v = true)
        (calculatedCells odd_values_result)
  /\ rewrite_formula (calculatedCells odd_values_result) "Assumptions.1" "A1+1" = "NaN+1"
  /\ calculatedCells odd_values_result !! "Assumptions.1!E1" = Some (JNum NaN).
Proof.
  split; [apply reachable_run|].
  assert (HA1 : calculatedCells odd_values_result !! "Assumptions.1!A1" = Some (JNum NaN))
    by (vm_compute; reflexivity).
  split; [exact HA1|].
  split; [vm_compute; reflexivity|].
  split; [vm_compute; reflexivity|].
  split; [vm_compute; reflexivity|].
  split; [|split; vm_compute; reflexivity].
  intros Hall. specialize (Hall _ _ HA1). discriminate Hall.
Qed.

(** C8, amended: the store keeps whatever value is written, of any kind,
    and reads it back unchanged.  What is normalized is the read: a cell
    that is absent under both keys reads as 0; a reference to a value that
    is neither a number nor a string is replaced by 0, while a stored [NaN]
    is a number and is substituted as [NaN]; the values a range expands to
    and the numbers the aggregate functions work on contain no [NaN] (and no
    value that is not a number). *)
Theorem reads_are_normalized_not_the_store :
  (forall sheetName cell value (e : engine),
     getCellValue (setCellValue sheetName cell value e) sheetName cell = value)
  /\ (forall (cells : gmap string jsval) sheetName cell,
        cells !! qualified sheetName cell = None -> cells !! cell = None ->
        store_get cells sheetName cell = JInt 0)
  /\ (forall value,
        typeof_number value = false -> typeof_string value = false ->
        substitution value = "0")
  /\ substitution (JNum NaN) = "NaN"
  /\ (forall cells startCell endCell sheetName,
        Forall (fun n => Num.is_nan n = false)
               (evaluateRange cells startCell endCell sheetName))
  /\ (forall args,
        Forall (fun n => Num.is_nan n = false) (excelFunctions.numbers_of args)).
Proof.
  split; [|split; [|split; [|split; [|split]]]].
  - intros. apply store_get_set.
  - intros cells sheetName cell Hq Hb. unfold store_get. by rewrite Hq, Hb.
  - intros value Hn Hs. by destruct value.
  - reflexivity.
  - intros. apply evaluateRange_no_nan.
  - intros. apply numbers_of_no_nan.
Qed.

(** *** C5 *)

(** [Math.round] picks the integer within a half of its argument, the upper
    one at a tie. *)
Lemma math_round_nearest q :
  let m := Qfloor (q + (1 # 2)) in
  Num.math_round (Fin q) = Fin (inject_Z m)
  /\ (q - (1 # 2) < inject_Z m)%Q /\ (inject_Z m <= q + (1 # 2))%Q.
Proof.
  intros m. unfold m. split; [reflexivity|]. split.
  - pose proof (Qlt_floor (q + (1 # 2))) as H.
    rewrite inject_Z_plus in H. simpl in H.
    apply (Qplus_lt_l _ _ 1). ring_simplify.
    eapply Qle_lt_trans; [|exact H]. ring_simplify. apply Qle_refl.
  - apply Qfloor_le.
Qed.

Lemma pow10_sign k : Num.sgn (inject_Z (10 ^ Z.abs k)) = Gt.
Proof.
  unfold Num.sgn. simpl. apply Z.compare_gt_iff.
  apply Z.pow_pos_nonneg; lia.
Qed.

(** What [ROUND] computes for a finite number: the number scaled by the
    power of ten, rounded by [Math.round], and scaled back. *)
Lemma ROUND_finite q d :
  let factor := inject_Z (10 ^ Z.abs d) in
  let scaled := if (d <? 0)%Z then (q / factor)%Q else (q * factor)%Q in
  let m := Qfloor (scaled + (1 # 2)) in
  exists r,
    excelFunctions.ROUND (Fin q) d = Fin r
    /\ (r == if (d <? 0)%Z then inject_Z m * factor else inject_Z m / factor)%Q
    /\ (scaled - (1 # 2) < inject_Z m)%Q /\ (inject_Z m <= scaled + (1 # 2))%Q.
Proof.
  intros factor scaled m.
  assert (Hnear : (scaled - (1 # 2) < inject_Z m)%Q /\ (inject_Z m <= scaled + (1 # 2))%Q).
  { by destruct (math_round_nearest scaled) as (_ & H1 & H2). }
  unfold excelFunctions.ROUND.
  destruct (d =? 0)%Z eqn:Hd0.
  - apply Z.eqb_eq in Hd0. subst d. eexists. split; [reflexivity|].
    split; [|done]. subst m scaled factor.
    change (10 ^ Z.abs 0)%Z with 1%Z. change (0 <? 0)%Z with false. cbv iota.
    assert (Heq : (q * inject_Z 1 + (1 # 2) == q + (1 # 2))%Q) by ring.
    rewrite (Qfloor_comp _ _ Heq). field.
  - unfold Num.pow10, Num.of_Z. subst m scaled factor.
    destruct (d <? 0)%Z eqn:Hneg.
    + unfold Num.div. rewrite pow10_sign.
      unfold Num.fin, Num.math_round, Num.mul, Num.of_Z, Num.fin.
      eexists. split; [reflexivity|]. split; [|done].
      rewrite Qred_correct.
      assert (Heq : (Qred (q / inject_Z (10 ^ Z.abs d)) + (1 # 2)
                     == q / inject_Z (10 ^ Z.abs d) + (1 # 2))%Q)
        by (by rewrite Qred_correct).
      by rewrite (Qfloor_comp _ _ Heq).
    + unfold Num.mul, Num.fin, Num.math_round, Num.of_Z, Num.div.
      rewrite pow10_sign. unfold Num.fin.
      eexists. split; [reflexivity|]. split; [|done].
      rewrite Qred_correct.
      assert (Heq : (Qred (q * inject_Z (10 ^ Z.abs d)) + (1 # 2)
                     == q * inject_Z (10 ^ Z.abs d) + (1 # 2))%Q)
        by (by rewrite Qred_correct).
      by rewrite (Qfloor_comp _ _ Heq).
Qed.

(** [ROUND(1234, -2)] is 1200, and a positive tie goes away from zero. *)
Example round_examples :
  excelFunctions.ROUND (Fin 1234) (-2) = Fin 1200
  /\ excelFunctions.ROUND (Fin (5 # 2)) 0 = Fin 3
  /\ excelFunctions.ROUND (Fin (1 # 4)) 1 = Fin (3 # 10)
  /\ excelFunctions.ROUND (Fin 150) (-2) = Fin 200.
Proof. repeat split; vm_compute; reflexivity. Qed.

(** C5 at its failing inputs: a negative tie is rounded towards zero (up),
    where rounding half away from zero gives -3, -0.3 and -200. *)
Theorem round_negative_tie_goes_up :
  excelFunctions.ROUND (Fin (-5 # 2)) 0 = Fin (-2)
  /\ excelFunctions.ROUND (Fin (-1 # 4)) 1 = Fin (-1 # 5)
  /\ excelFunctions.ROUND (Fin (-150)) (-2) = Fin (-100)
  /\ fst (evaluateFormula "ROUND(-2.5,0)" "wc" "A1" new_engine) = JInt (-2).
Proof. repeat split; vm_compute; reflexivity. Qed.

(** *** The cell store: aliasing, frame and size *)

Lemma string_length_app (a b : string) :
  String.length (a ++ b) = (String.length a + String.length b)%nat.
Proof.
  induction a as [|c a IH]; [reflexivity|].
  rewrite append_cons. simpl. by rewrite IH.
Qed.

Lemma qualified_not_bare sheetName cell : qualified sheetName cell <> cell.
Proof.
  intros H. apply (f_equal String.length) in H.
  unfold qualified in H. rewrite !string_length_app in H. simpl in H. lia.
Qed.

Lemma qualified_has_bang sheetName cell : bang_free (qualified sheetName cell) = false.
Proof.
  unfold bang_free, qualified. rewrite !all_chars_app. simpl.
  by rewrite andb_false_r.
Qed.

Lemma qualified_inj s1 c1 s2 c2 :
  bang_free c1 = true -> bang_free c2 = true ->
  qualified s1 c1 = qualified s2 c2 -> s1 = s2 /\ c1 = c2.
Proof.
  intros H1 H2. revert s2.
  induction s1 as [|a s1 IH]; intros [|b s2];
    change (qualified EmptyString ?c) with (String "!" c);
    change (qualified (String ?x ?s) ?c) with (String x (qualified s c)).
  - by intros [= ->].
  - intros [= <- ->]. by rewrite qualified_has_bang in H1.
  - intros [= -> <-]. by rewrite qualified_has_bang in H2.
  - intros [= -> Hrest]. destruct (IH _ Hrest) as [-> ->]. done.
Qed.

(** X1: a value written for an address on one sheet is what every sheet
    reads for that address as long as the reading sheet has no entry of its
    own for it: the bare key is shared by all sheets. *)
Theorem write_is_read_by_other_sheets
    (e : engine) (writer reader cell : string) (value : jsval) :
  calculatedCells e !! qualified reader cell = None ->
  getCellValue (setCellValue writer cell value e) reader cell = value.
Proof.
  intros Hnone. unfold getCellValue, setCellValue, store_get; cbn [calculatedCells].
  rewrite !store_set_lookup. unfold touches; cbn [write_to w_cell w_sheet].
  rewrite String.eqb_refl. cbn [orb].
  destruct (String.eqb (qualified reader cell) cell
            || String.eqb (qualified reader cell) (qualified writer cell)); [done|].
  by rewrite Hnone.
Qed.

Lemma write_is_read_by_other_sheets_witness :
  getCellValue (setCellValue "wc" "C8" (JInt 5) new_engine) "plbs" "C8" = JInt 5.
Proof.
  apply (write_is_read_by_other_sheets new_engine "wc" "plbs" "C8" (JInt 5)).
  reflexivity.
Defined.

(** X2: writing a cell leaves what any sheet reads for a different address
    unchanged, for addresses that contain no ['!']. *)
Theorem write_leaves_other_addresses
    (e : engine) (writer reader written other : string) (value : jsval) :
  bang_free written = true -> bang_free other = true -> written <> other ->
  getCellValue (setCellValue writer written value e) reader other
  = getCellValue e reader other.
Proof.
  intros Hw Ho Hne. unfold getCellValue, setCellValue, store_get; cbn [calculatedCells].
  rewrite !store_set_lookup. unfold touches; cbn [write_to w_cell w_sheet].
  assert (H1 : String.eqb (qualified reader other) written = false).
  { apply String.eqb_neq. intros H. rewrite <- H in Hw.
    by rewrite qualified_has_bang in Hw. }
  assert (H2 : String.eqb (qualified reader other) (qualified writer written) = false).
  { apply String.eqb_neq. intros H.
    apply qualified_inj in H as [_ H]; [|done|done]. by subst. }
  assert (H3 : String.eqb other written = false).
  { apply String.eqb_neq. congruence. }
  assert (H4 : String.eqb other (qualified writer written) = false).
  { apply String.eqb_neq. intros H. rewrite H in Ho.
    by rewrite qualified_has_bang in Ho. }
  by rewrite H1, H2, H3, H4.
Qed.

Lemma write_leaves_other_addresses_witness :
  getCellValue (setCellValue "wc" "C8" (JInt 5)
                  (setCellValue "plbs" "D9" (JInt 7) new_engine)) "plbs" "D9"
  = getCellValue (setCellValue "plbs" "D9" (JInt 7) new_engine) "plbs" "D9".
Proof.
  apply (write_leaves_other_addresses
           (setCellValue "plbs" "D9" (JInt 7) new_engine) "wc" "plbs" "C8" "D9" (JInt 5));
    [reflexivity|reflexivity|discriminate].
Defined.

(** X3: [total_calculated] counts keys, not cells: a write never lowers
    it and raises it by at most 2, and by exactly 2 when neither the
    qualified nor the bare key of the cell was in the store. *)
Theorem total_calculated_counts_keys
    (e : engine) (sheetName cell : string) (value : jsval) :
  (total_calculated e <= total_calculated (setCellValue sheetName cell value e)
   <= total_calculated e + 2)%nat
  /\ (calculatedCells e !! qualified sheetName cell = None ->
      calculatedCells e !! cell = None ->
      total_calculated (setCellValue sheetName cell value e)
      = (total_calculated e + 2)%nat).
Proof.
  unfold total_calculated, setCellValue, store_set; cbn [calculatedCells].
  set (cells := calculatedCells e).
  set (cells1 := <[qualified sheetName cell := value]> cells).
  assert (Hstep : forall (m : gmap string jsval) k,
            (size m <= size (<[k := value]> m) <= size m + 1)%nat).
  { intros m k. destruct (m !! k) eqn:Hk.
    - rewrite map_size_insert_Some by done. lia.
    - rewrite map_size_insert_None by done. lia. }
  split.
  - pose proof (Hstep cells (qualified sheetName cell)).
    pose proof (Hstep cells1 cell). fold cells1 in H. lia.
  - intros Hq Hb. rewrite map_size_insert_None.
    + unfold cells1. rewrite map_size_insert_None by done. lia.
    + unfold cells1. rewrite lookup_insert_ne; [done|]. apply qualified_not_bare.
Qed.

Lemma total_calculated_counts_keys_witness :
  total_calculated (setCellValue "wc" "C8" (JInt 5) new_engine) = 2%nat.
Proof.
  apply (proj2 (total_calculated_counts_keys new_engine "wc" "C8" (JInt 5)));
    reflexivity.
Defined.

(** *** The input normalizer: defaults, [null] and the pinned cells *)

Lemma input_write_default nd key inputDef (items : list (string * InputDefinition)) :
  (key, inputDef) ∈ items ->
  prop nd key = JUndef ->
  not_nullish (input_default inputDef) = true ->
  write_to (input_sheet inputDef) (input_cell inputDef) (input_default inputDef)
    ∈ concat (map (input_write nd) items).
Proof.
  intros Hin Hmissing Hdefault. apply list_elem_of_In, in_concat.
  exists (input_write nd (key, inputDef)). split.
  - apply in_map. by apply list_elem_of_In.
  - unfold input_write. rewrite Hmissing. cbn [not_undefined].
    rewrite Hdefault. by left.
Qed.

(** X4: a declared input that the normalized data lacks gets its declared
    default written to its declared cell; an input supplied as [null] is
    neither written nor replaced by its default. *)
Theorem defaults_fill_missing_inputs
    (wb : ExcelData) (formData : FormData) (key : string) (inputDef : InputDefinition) :
  (key, inputDef) ∈ inputs wb ->
  (prop (normalize formData) key = JUndef ->
   not_nullish (input_default inputDef) = true ->
   write_to (input_sheet inputDef) (input_cell inputDef) (input_default inputDef)
     ∈ setInputs_writes wb formData)
  /\ (prop (normalize formData) key = JNull ->
      input_write (normalize formData) (key, inputDef) = []).
Proof.
  intros Hin. split.
  - intros Hmissing Hdefault. unfold setInputs_writes.
    apply elem_of_app. left. by apply (input_write_default _ key).
  - intros Hnull. unfold input_write. by rewrite Hnull.
Qed.

Lemma defaults_fill_missing_inputs_witness :
  write_to "Assumptions.1" "F10" (JInt 12) ∈ setInputs_writes default_workbook no_form_data
  /\ input_write (normalize null_months_data)
       ("year1_months",
        {| input_sheet := "Assumptions.1"; input_cell := "F10"; input_default := JInt 12 |})
     = [].
Proof.
  destruct (defaults_fill_missing_inputs default_workbook no_form_data "year1_months"
              {| input_sheet := "Assumptions.1"; input_cell := "F10";
                 input_default := JInt 12 |}) as [Hdefault _].
  { apply list_elem_of_In. simpl. tauto. }
  destruct (defaults_fill_missing_inputs default_workbook null_months_data "year1_months"
              {| input_sheet := "Assumptions.1"; input_cell := "F10";
                 input_default := JInt 12 |}) as [_ Hnull].
  { apply list_elem_of_In. simpl. tauto. }
  split; [apply Hdefault; reflexivity | apply Hnull; reflexivity].
Defined.

Lemma pinned_write_values nd key cell w :
  w ∈ pinned_write nd key cell ->
  w = write_to "Assumptions.1" cell (prop nd key) /\ not_undefined (prop nd key) = true.
Proof.
  unfold pinned_write. destruct (not_undefined (prop nd key)); [|by intros H%elem_of_nil].
  by intros ->%list_elem_of_singleton.
Qed.

(** X5: [setInputs] never writes [undefined], and it writes [null] only
    through an override, into one of the cells I29, I30, I31 and I35 of
    Assumptions.1: the generic mapping, the monthly rent, the static values
    and the pinned F cells all store values other than [null]. *)
Theorem setInputs_writes_null_only_by_override
    (wb : ExcelData) (formData : FormData) (w : cell_write) :
  w ∈ setInputs_writes wb formData ->
  w_value w <> JUndef
  /\ (w_value w = JNull ->
      w_sheet w = "Assumptions.1" /\ w_cell w ∈ ["I30"; "I29"; "I31"; "I35"]).
Proof.
  unfold setInputs_writes, override_writes.
  generalize (normalize formData). intros nd.
  rewrite !elem_of_app. intros Hw.
  assert (Hgood : not_nullish (w_value w) = true ->
            w_value w <> JUndef /\ (w_value w = JNull ->
              w_sheet w = "Assumptions.1" /\ w_cell w ∈ ["I30"; "I29"; "I31"; "I35"])).
  { intros Hv. split; intros Heq; by rewrite Heq in Hv. }
  assert (Hpin : forall key cell, cell ∈ ["I30"; "I29"; "I31"; "I35"] ->
            w ∈ pinned_write nd key cell ->
            w_value w <> JUndef /\ (w_value w = JNull ->
              w_sheet w = "Assumptions.1" /\ w_cell w ∈ ["I30"; "I29"; "I31"; "I35"])).
  { intros key cell Hcell [-> Hdef]%pinned_write_values. cbn [write_to w_value w_sheet w_cell].
    split; [by destruct (prop nd key)|done]. }
  destruct Hw as [Hw|[[Hw|[Hw|[Hw|[Hw|Hw]]]]|[Hw|Hw]]].
  - apply Hgood. apply list_elem_of_In, in_concat in Hw as (ws & Hws & Hw).
    apply in_map_iff in Hws as ([key inputDef] & <- & _).
    unfold input_write in Hw.
    destruct (not_nullish _) eqn:Hv; [|done]. by destruct Hw as [<-|[]].
  - apply (Hpin "electricity" "I30"); [|done]. apply list_elem_of_In. simpl. tauto.
  - apply (Hpin "rent" "I29"); [|done]. apply list_elem_of_In. simpl. tauto.
  - apply list_elem_of_singleton in Hw as ->. apply Hgood.
    cbn [write_to w_value]. unfold monthlyRentAmount, js_or.
    destruct (truthy (prop nd "monthly_rent")) eqn:Ht; [|done].
    by destruct (prop nd "monthly_rent").
  - apply (Hpin "marketing_expenses" "I31"); [|done]. apply list_elem_of_In. simpl. tauto.
  - apply (Hpin "other_expenses" "I35"); [|done]. apply list_elem_of_In. simpl. tauto.
  - apply Hgood. apply list_elem_of_In, in_concat in Hw as (ws & Hws & Hw).
    apply in_map_iff in Hws as ([sheetName sheetData] & <- & _).
    unfold sheet_static_writes in Hw.
    destruct (static_values sheetData) as [values|]; [|done].
    apply in_concat in Hw as (ws' & Hws' & Hw).
    apply in_map_iff in Hws' as (staticValue & <- & _).
    destruct (not_nullish (static_value staticValue)) eqn:Hv; [|done].
    by destruct Hw as [<-|[]].
  - apply Hgood. apply list_elem_of_In in Hw. simpl in Hw.
    by destruct Hw as [<-|[<-|[<-|[<-|[<-|[<-|[]]]]]]].
Qed.

Lemma setInputs_writes_null_only_by_override_witness :
  JNull <> JUndef
  /\ (JNull = JNull ->
      "Assumptions.1" = "Assumptions.1" /\ "I30" ∈ ["I30"; "I29"; "I31"; "I35"]).
Proof.
  apply (setInputs_writes_null_only_by_override default_workbook null_electricity_data
           (write_to "Assumptions.1" "I30" JNull)).
  apply list_elem_of_In. vm_compute. tauto.
Defined.

(** X6: a monthly rent supplied under its legacy key [monthly_rent] is
    written to the base rent cell I28 and, being the alias of
    [marketing_expenses], to the marketing expenses cell I31 as well. *)
Theorem monthly_rent_is_also_marketing_expenses
    (wb : ExcelData) (formData : FormData) :
  let supplied := prop (inputData_of formData) "monthly_rent" in
  truthy supplied = true ->
  write_to "Assumptions.1" "I28" supplied ∈ setInputs_writes wb formData
  /\ write_to "Assumptions.1" "I31" supplied ∈ setInputs_writes wb formData.
Proof.
  intros supplied Htruthy.
  assert (Hvalue : not_nullish supplied = true) by by destruct supplied.
  assert (Hmarketing : prop (normalize formData) "marketing_expenses" = supplied).
  { unfold normalize. rewrite convert_units_prop. unfold map_field_names.
    rewrite (fold_alias_supplied _ _ _ "monthly_rent");
      [reflexivity|apply fieldNameMapping_targets_distinct| |done].
    apply list_elem_of_In. simpl. tauto. }
  unfold setInputs_writes, override_writes, monthlyRentAmount, js_or, pinned_write.
  rewrite normalize_keeps_monthly_rent, Hmarketing. fold supplied.
  rewrite Htruthy, (not_nullish_not_undefined _ Hvalue).
  rewrite !elem_of_app, !elem_of_cons. split; tauto.
Qed.

Lemma monthly_rent_is_also_marketing_expenses_witness :
  write_to "Assumptions.1" "I28" (JInt 8000) ∈ setInputs_writes default_workbook rent_only_data
  /\ write_to "Assumptions.1" "I31" (JInt 8000)
       ∈ setInputs_writes default_workbook rent_only_data.
Proof.
  apply (monthly_rent_is_also_marketing_expenses default_workbook rent_only_data).
  reflexivity.
Defined.

(** *** The unit heuristics applied twice *)

Lemma ltb_fin_false (x y : Q) : (y <= x)%Q -> Num.ltb (Fin x) (Fin y) = false.
Proof.
  intros Hle. unfold Num.ltb.
  destruct (x ?= y)%Q eqn:Hc; try reflexivity.
  apply Qlt_alt in Hc. exfalso. by apply (Qlt_not_le _ _ Hc).
Qed.

Lemma rescaled_stays (limit : Z) (f : jsval -> jsval) (v : jsval) (q' : Q) :
  f v = JNum (Fin q') -> (q' <= inject_Z limit)%Q ->
  let rescale := fun u => if truthy u && js_gt u (JInt limit) then f u else u in
  rescale (rescale v) = rescale v.
Proof.
  intros Hf Hle rescale. unfold rescale.
  destruct (truthy v && js_gt v (JInt limit)) eqn:Hc; [|by rewrite Hc].
  rewrite Hf. unfold js_gt, js_lt, JInt, Num.of_Z. cbn [to_primitive to_number].
  by rewrite ltb_fin_false, andb_false_r.
Qed.

Lemma as_fraction_fin q : as_fraction (JNum (Fin q)) = JNum (Fin (Qred (q / 100))).
Proof. reflexivity. Qed.

Lemma as_multiplier_fin q :
  as_multiplier (JNum (Fin q)) = JNum (Fin (Qred (1 + Qred (q / 100)))).
Proof. reflexivity. Qed.

Lemma fraction_bound q (limit : Z) :
  (q <= 100 * inject_Z limit)%Q -> (Qred (q / 100) <= inject_Z limit)%Q.
Proof.
  intros Hq. rewrite Qred_correct. apply Qle_shift_div_r; [reflexivity|].
  by rewrite Qmult_comm.
Qed.

Lemma multiplier_bound q : (q <= 900)%Q -> (Qred (1 + Qred (q / 100)) <= inject_Z 10)%Q.
Proof.
  intros Hq. rewrite !Qred_correct.
  assert (H : (q / 100 <= 9)%Q).
  { apply Qle_shift_div_r; [reflexivity|]. exact Hq. }
  apply (Qplus_le_r _ _ 1) in H. eapply Qle_trans; [exact H|]. by compute.
Qed.

(** X7: for a key the unit heuristics rescale and a numeric value up to the
    bound of that key (100 for the three percentages, 1000 for the growth
    rate, 900 for the two multipliers), converting the units of already
    converted data changes nothing. *)
Theorem convert_units_twice
    (normalizedData : gmap string jsval) (key : string) (bound q : Q) :
  (key, bound) ∈ unit_keys ->
  prop normalizedData key = JNum (Fin q) ->
  (q <= bound)%Q ->
  prop (convert_units (convert_units normalizedData)) key
  = prop (convert_units normalizedData) key.
Proof.
  intros Hkey Hv Hq. rewrite !convert_units_prop, Hv.
  apply list_elem_of_In in Hkey. simpl in Hkey.
  destruct Hkey as [[= <- <-]|[[= <- <-]|[[= <- <-]|[[= <- <-]|[[= <- <-]|[[= <- <-]|[]]]]]]];
    unfold unit_rule; cbn [String.eqb Ascii.eqb Bool.eqb orb].
  - apply (rescaled_stays 1 as_fraction _ _ (as_fraction_fin q)). by apply fraction_bound.
  - apply (rescaled_stays 1 as_fraction _ _ (as_fraction_fin q)). by apply fraction_bound.
  - apply (rescaled_stays 1 as_fraction _ _ (as_fraction_fin q)). by apply fraction_bound.
  - apply (rescaled_stays 10 as_multiplier _ _ (as_multiplier_fin q)).
    by apply multiplier_bound.
  - apply (rescaled_stays 10 as_fraction _ _ (as_fraction_fin q)). by apply fraction_bound.
  - apply (rescaled_stays 10 as_multiplier _ _ (as_multiplier_fin q)).
    by apply multiplier_bound.
Qed.

Lemma convert_units_twice_witness :
  prop (convert_units (convert_units (<["proposed_roi" := JInt 12]> ∅))) "proposed_roi"
  = prop (convert_units (<["proposed_roi" := JInt 12]> ∅)) "proposed_roi".
Proof.
  apply (convert_units_twice (<["proposed_roi" := JInt 12]> ∅) "proposed_roi" 100 12).
  - apply list_elem_of_In. simpl. tauto.
  - reflexivity.
  - discriminate.
Defined.

(** Above the bound a second conversion does change the value: 150 becomes
    1.5 and then 0.015. *)
Example above_bound_is_rescaled_again :
  prop (convert_units (<["proposed_roi" := JInt 150]> ∅)) "proposed_roi" = JNum (Fin (3 # 2))
  /\ prop (convert_units (convert_units (<["proposed_roi" := JInt 150]> ∅))) "proposed_roi"
     = JNum (Fin (3 # 200)).
Proof. split; vm_compute; reflexivity. Qed.

(** *** Ranges: the end column and the number of members *)

Lemma range_at_groups s startCol startRow endCol endRow len :
  range_at s = Some (startCol, startRow, endCol, endRow, len) ->
  (all_chars is_upper startCol = true /\ is_empty startCol = false
   /\ all_chars is_digit startRow = true /\ is_empty startRow = false)
  /\ (all_chars is_upper endCol = true /\ is_empty endCol = false
      /\ all_chars is_digit endRow = true /\ is_empty endRow = false).
Proof.
  unfold range_at.
  destruct (cell_at s) as [[[c1 r1] rest1]|] eqn:H1; [|done].
  destruct rest1 as [|ch rest1]; [done|].
  destruct (Ascii.eqb ch ":"); [|done].
  destruct (cell_at rest1) as [[[c2 r2] rest2]|] eqn:H2; [|done].
  intros [= <- <- <- <- _].
  apply cell_at_spec in H1 as (_ & ? & ? & ? & ? & _).
  apply cell_at_spec in H2 as (_ & ? & ? & ? & ? & _). done.
Qed.


(** X8: the end column of a range is ignored: a range token expands over
    the start cell's column whatever column its end cell names, so A1:B3
    expands exactly as A1:A3. *)
Theorem range_end_column_is_ignored
    (cells : gmap string jsval) (sheetName s : string)
    (startCol startRow endCol endRow : string) (len : nat) :
  range_at s = Some (startCol, startRow, endCol, endRow, len) ->
  evaluateRange cells (startCol ++ startRow) (endCol ++ endRow) sheetName
  = evaluateRange cells (startCol ++ startRow) (startCol ++ endRow) sheetName.
Proof.
  intros ((? & ? & ? & ?) & (? & ? & ? & ?))%range_at_groups.
  by rewrite !evaluateRange_spec.
Qed.

Lemma range_end_column_is_ignored_witness :
  evaluateRange sum_example_cells ("C" ++ "10") ("D" ++ "12") "wc"
  = evaluateRange sum_example_cells ("C" ++ "10") ("C" ++ "12") "wc".
Proof.
  apply (range_end_column_is_ignored sum_example_cells "wc" "C10:D12"
           "C" "10" "D" "12" 7 eq_refl).
Defined.



(** *** Formulas the passes leave alone, and formulas that are one address *)

Lemma all_chars_tail p c s : all_chars p (String c s) = true -> all_chars p s = true.
Proof. simpl. by intros [_ H]%andb_prop. Qed.

Lemma replace_global_unmatched matcher (p : ascii -> bool) :
  (forall prev t, all_chars p t = true -> matcher prev t = None) ->
  forall s prev, all_chars p s = true -> replace_global matcher prev 0 s = s.
Proof.
  intros Hnone. induction s as [|c s IH]; intros prev Hs; [reflexivity|].
  cbn [replace_global]. rewrite (Hnone _ _ Hs). f_equal.
  apply IH. by apply all_chars_tail in Hs.
Qed.

Lemma replace_global_skips matcher prev skip s :
  (String.length s <= skip)%nat -> replace_global matcher prev skip s = EmptyString.
Proof.
  revert prev skip. induction s as [|c s IH]; intros prev skip Hlen; [reflexivity|].
  simpl in Hlen. destruct skip as [|k]; [lia|]. cbn [replace_global]. apply IH. lia.
Qed.

Lemma cell_at_head_not_upper s : JsEval.starts_with is_upper s = false -> cell_at s = None.
Proof.
  destruct s as [|c s]; [done|]. simpl. intros Hc. by apply cell_at_not_upper.
Qed.

Lemma not_upper_head s : all_chars not_upper s = true -> JsEval.starts_with is_upper s = false.
Proof.
  destruct s as [|c s]; [done|]. simpl. intros [Hc _]%andb_prop.
  by apply negb_true_iff.
Qed.

Lemma span_rest_all p q s a b :
  span p s = (a, b) -> all_chars q s = true -> all_chars q b = true.
Proof.
  intros (-> & _ & _)%span_spec. rewrite all_chars_app. by intros [_ H]%andb_prop.
Qed.

Lemma range_matcher_not_upper cells sheetName prev t :
  all_chars not_upper t = true -> range_matcher cells sheetName prev t = None.
Proof.
  intros Ht%not_upper_head. unfold range_matcher, range_at.
  by rewrite cell_at_head_not_upper.
Qed.

Lemma qualified_at_cell_free (q : ascii -> bool) t :
  (forall r, all_chars q r = true -> cell_at r = None) ->
  all_chars q t = true -> qualified_at t = None.
Proof.
  intros Hcell Ht. unfold qualified_at.
  destruct (span is_sheet_char t) as [sheet r1] eqn:Hspan.
  destruct (is_empty sheet); [done|].
  apply (span_rest_all _ q) in Hspan; [|done].
  destruct r1 as [|c r2]; [done|]. destruct (Ascii.eqb c "!"); [|done].
  apply all_chars_tail in Hspan. by rewrite Hcell.
Qed.

Lemma qualified_matcher_not_upper cells prev t :
  all_chars not_upper t = true -> qualified_matcher cells prev t = None.
Proof.
  intros Ht. unfold qualified_matcher. rewrite (qualified_at_cell_free not_upper); [done| |done].
  intros r Hr. by apply cell_at_head_not_upper, not_upper_head.
Qed.

Lemma bare_matcher_not_upper cells sheetName prev t :
  all_chars not_upper t = true -> bare_matcher cells sheetName prev t = None.
Proof.
  intros Ht%not_upper_head. unfold bare_matcher, bare_at.
  rewrite cell_at_head_not_upper by done. by destruct (boundary_before prev).
Qed.

Lemma literal_matcher_not_upper c name replacement prev t :
  is_upper c = true -> all_chars not_upper t = true ->
  literal_matcher (String c name) replacement prev t = None.
Proof.
  intros Hc Ht. unfold literal_matcher. destruct t as [|d t]; [done|]. simpl.
  simpl in Ht. apply andb_prop in Ht as [Hd _]. apply negb_true_iff in Hd.
  destruct (Ascii.eqb_spec c d) as [->|_]; [congruence|done].
Qed.

Lemma qualify_function_not_upper c name jsCode :
  is_upper c = true -> all_chars not_upper jsCode = true ->
  qualify_function (String c name) jsCode = jsCode.
Proof.
  intros Hc Hs. unfold qualify_function, replace_all.
  apply (replace_global_unmatched _ not_upper); [|done].
  intros prev t Ht. change (String c name ++ "(") with (String c (name ++ "(")).
  by apply literal_matcher_not_upper.
Qed.

(** X10: a formula without a capital letter reaches [eval] exactly as it
    is written, whatever the store holds: every pattern of the three
    substitution passes and of the function renaming needs a capital. *)
Theorem formula_without_capitals_is_verbatim
    (cells : gmap string jsval) (sheetName formula : string) :
  all_chars not_upper formula = true ->
  rewrite_formula cells sheetName formula = formula.
Proof.
  intros Hs. unfold rewrite_formula, substitute_references.
  unfold replace_bare, replace_qualified, replace_ranges, replace_all.
  rewrite (replace_global_unmatched _ not_upper
             (range_matcher_not_upper cells sheetName) _ _ Hs).
  rewrite (replace_global_unmatched _ not_upper (qualified_matcher_not_upper cells) _ _ Hs).
  rewrite (replace_global_unmatched _ not_upper
             (bare_matcher_not_upper cells sheetName) _ _ Hs).
  unfold convert_functions, function_names. cbn [fold_left].
  by repeat (rewrite (qualify_function_not_upper _ _ formula); [|reflexivity|exact Hs]).
Qed.

Lemma formula_without_capitals_is_verbatim_witness :
  rewrite_formula sum_example_cells "wc" "(1+2)*3.5" = "(1+2)*3.5".
Proof.
  apply (formula_without_capitals_is_verbatim sum_example_cells "wc" "(1+2)*3.5").
  reflexivity.
Defined.

Lemma upper_or_digit_not c (x : ascii) :
  is_upper x = false -> is_digit x = false ->
  is_upper c || is_digit c = true -> negb (Ascii.eqb c x) = true.
Proof.
  intros Hu Hd Hc. apply negb_true_iff.
  destruct (Ascii.eqb_spec c x) as [->|_]; [|done]. by rewrite Hu, Hd in Hc.
Qed.

Lemma all_chars_impl (p q : ascii -> bool) s :
  (forall c, p c = true -> q c = true) -> all_chars p s = true -> all_chars q s = true.
Proof.
  intros Hpq. induction s as [|c s IH]; [done|]. simpl.
  intros [Hc Hs]%andb_prop. by rewrite (Hpq _ Hc), IH.
Qed.

Lemma address_chars col row :
  all_chars is_upper col = true -> all_chars is_digit row = true ->
  all_chars (fun c => is_upper c || is_digit c) (col ++ row) = true.
Proof.
  intros Hu Hd. rewrite all_chars_app.
  rewrite (all_chars_impl is_upper _ col), (all_chars_impl is_digit _ row); try done.
  - intros c Hc. by rewrite Hc, orb_true_r.
  - intros c Hc. by rewrite Hc.
Qed.

Lemma range_at_colon_free t :
  all_chars (fun c => negb (Ascii.eqb c ":")) t = true -> range_at t = None.
Proof.
  intros Ht. unfold range_at.
  destruct (cell_at t) as [[[c1 r1] rest]|] eqn:Hcell; [|done].
  destruct rest as [|ch rest]; [done|].
  apply cell_at_spec in Hcell as (-> & _).
  rewrite !all_chars_app in Ht. apply andb_prop in Ht as [_ Ht].
  apply andb_prop in Ht as [_ Ht]. simpl in Ht. apply andb_prop in Ht as [Hch _].
  apply negb_true_iff in Hch. by rewrite Hch.
Qed.

Lemma qualified_at_bang_free t :
  all_chars (fun c => negb (Ascii.eqb c "!")) t = true -> qualified_at t = None.
Proof.
  intros Ht. unfold qualified_at.
  destruct (span is_sheet_char t) as [sheet r1] eqn:Hspan.
  destruct (is_empty sheet); [done|].
  apply (span_rest_all _ _ _ _ _ Hspan) in Ht.
  destruct r1 as [|c r2]; [done|]. simpl in Ht. apply andb_prop in Ht as [Hc _].
  apply negb_true_iff in Hc. by rewrite Hc.
Qed.

(** X11: a formula that is exactly one cell address (capital letters, then
    digits) is rewritten to the substitution of what the current sheet
    reads for that address: the number as it prints, the string in double
    quotes, 0 for any other value and for a cell that was never written. *)
Theorem address_formula_is_its_value
    (cells : gmap string jsval) (sheetName col row : string) :
  all_chars is_upper col = true -> is_empty col = false ->
  all_chars is_digit row = true -> is_empty row = false ->
  substitute_references cells sheetName (col ++ row)
  = substitution (store_get cells sheetName (col ++ row)).
Proof.
  intros Hu Hue Hd Hde. pose proof (address_chars col row Hu Hd) as Hchars.
  unfold substitute_references, replace_bare, replace_qualified, replace_ranges, replace_all.
  rewrite (replace_global_unmatched (range_matcher cells sheetName)
             (fun c => negb (Ascii.eqb c ":"))).
  2: { intros prev t Ht. unfold range_matcher. by rewrite range_at_colon_free. }
  2: { revert Hchars. apply all_chars_impl. intros c. by apply upper_or_digit_not. }
  rewrite (replace_global_unmatched (qualified_matcher cells)
             (fun c => negb (Ascii.eqb c "!"))).
  2: { intros prev t Ht. unfold qualified_matcher. by rewrite qualified_at_bang_free. }
  2: { revert Hchars. apply all_chars_impl. intros c. by apply upper_or_digit_not. }
  destruct col as [|c col]; [done|]. rewrite append_cons.
  cbn [replace_global]. rewrite <- append_cons.
  unfold bare_matcher, bare_at. cbn [boundary_before].
  rewrite (cell_at_exact (String c col) row) by done. cbn [boundary_after].
  rewrite append_cons. rewrite replace_global_skips.
  - apply append_empty_r.
  - rewrite <- string_length_app. simpl. lia.
Qed.

Lemma address_formula_is_its_value_witness :
  substitute_references sum_example_cells "wc" ("C" ++ "11")
  = substitution (store_get sum_example_cells "wc" ("C" ++ "11")).
Proof.
  apply (address_formula_is_its_value sum_example_cells "wc" "C" "11"); reflexivity.
Defined.

(** *** The sheets [calculateAll] works on *)

(** X12: [calculateAll] works on the sheets of [sheetOrder] only, looked
    up by name: two workbooks that give the same sheet for each of the nine
    names are calculated alike, whatever other sheets they hold and in
    whatever order they list them. *)
Theorem calculateAll_reads_listed_sheets_only
    (ev : string -> outcome) (wb wb' : ExcelData) (e : engine) :
  Forall (fun name => entry name (sheets wb) = entry name (sheets wb')) sheetOrder ->
  calculateAllWith ev wb e = calculateAllWith ev wb' e.
Proof.
  unfold calculateAllWith, calculateSheetsWith. generalize sheetOrder.
  intros order Hsame. revert e.
  induction Hsame as [|name order Hname _ IH]; intros e; [reflexivity|].
  cbn [fold_left]. unfold calculateSheetWith at 2 4. rewrite Hname. apply IH.
Qed.

Lemma calculateAll_reads_listed_sheets_only_witness :
  calculateAllWith js_eval unlisted_sheet_workbook new_engine
  = calculateAllWith js_eval odd_values_workbook new_engine.
Proof.
  apply (calculateAll_reads_listed_sheets_only js_eval
           unlisted_sheet_workbook odd_values_workbook new_engine).
  repeat constructor.
Defined.

(** *** The aggregate functions *)

Lemma ltb_irrefl n : Num.ltb n n = false.
Proof.
  destruct n as [q| | |]; try done. simpl.
  by rewrite (proj1 (Qeq_alt q q) (Qeq_refl q)).
Qed.

Lemma ltb_fin x y : Num.ltb (Fin x) (Fin y) = true <-> (x < y)%Q.
Proof.
  simpl. rewrite Qlt_alt. destruct (x ?= y)%Q; split; congruence.
Qed.

Lemma ltb_not_below a x n :
  Num.ltb a x = true -> Num.ltb a n = false -> Num.is_nan n = false ->
  Num.ltb x n = false.
Proof.
  intros Hax Han Hn. apply not_true_is_false. intros Hxn.
  destruct a as [a| | |], x as [x| | |], n as [n| | |]; try done.
  apply ltb_fin in Hax, Hxn.
  assert (Num.ltb (Fin a) (Fin n) = true) as Hlt
    by (apply ltb_fin; by apply Qlt_trans with x).
  congruence.
Qed.

Lemma max_cases a x :
  Num.is_nan a = false -> Num.is_nan x = false ->
  (Num.ltb a x = true /\ Num.max a x = x) \/ (Num.ltb a x = false /\ Num.max a x = a).
Proof.
  intros Ha Hx. unfold Num.max.
  destruct a as [a| | |], x as [x| | |]; try done;
    destruct (Num.ltb _ _) eqn:H; auto.
Qed.

Lemma min_cases a x :
  Num.is_nan a = false -> Num.is_nan x = false ->
  (Num.ltb x a = true /\ Num.min a x = x) \/ (Num.ltb x a = false /\ Num.min a x = a).
Proof.
  intros Ha Hx. unfold Num.min.
  destruct a as [a| | |], x as [x| | |]; try done;
    destruct (Num.ltb _ _) eqn:H; auto.
Qed.

Lemma ltb_not_above a x n :
  Num.ltb x a = true -> Num.ltb n a = false -> Num.is_nan n = false ->
  Num.ltb n x = false.
Proof.
  intros Hxa Hna Hn. apply not_true_is_false. intros Hnx.
  destruct a as [a| | |], x as [x| | |], n as [n| | |]; try done.
  apply ltb_fin in Hxa, Hnx.
  assert (Num.ltb (Fin n) (Fin a) = true) as Hlt
    by (apply ltb_fin; by apply Qlt_trans with x).
  congruence.
Qed.

Lemma fold_max_spec nums : forall acc seen,
  Forall (fun n => Num.is_nan n = false) nums ->
  Num.is_nan acc = false ->
  Forall (fun n => Num.is_nan n = false) seen ->
  Forall (fun n => Num.ltb acc n = false) seen ->
  let m := fold_left Num.max nums acc in
  (m = acc \/ m ∈ nums)
  /\ Forall (fun n => Num.ltb m n = false) (seen ++ nums)%list.
Proof.
  induction nums as [|x nums IH]; intros acc seen Hnums Hacc Hseen Hbound; cbn zeta.
  - simpl. rewrite app_nil_r. auto.
  - apply Forall_cons in Hnums as [Hx Hnums]. cbn [fold_left].
    assert (Num.is_nan (Num.max acc x) = false) as Hnan
      by (destruct (max_cases acc x Hacc Hx) as [[_ ->]|[_ ->]]; done).
    assert (Forall (fun n => Num.ltb (Num.max acc x) n = false) (seen ++ [x])%list) as Hb.
    { apply Forall_app. destruct (max_cases acc x Hacc Hx) as [[Hlt ->]|[Hge ->]].
      - split; [|repeat constructor; apply ltb_irrefl].
        rewrite Forall_forall in Hbound, Hseen. apply Forall_forall. intros n Hn.
        apply (ltb_not_below acc); auto.
      - split; [done|]. by repeat constructor. }
    destruct (IH (Num.max acc x) (seen ++ [x])%list Hnums Hnan) as [Hmem Hall]; [|done|].
    { apply Forall_app. split; [done|]. by repeat constructor. }
    cbn zeta in Hmem, Hall. rewrite <- app_assoc in Hall. split; [|exact Hall].
    destruct Hmem as [->|Hin]; [|right; by apply elem_of_cons; right].
    destruct (max_cases acc x Hacc Hx) as [[_ ->]|[_ ->]]; [right|by left].
    apply elem_of_cons. by left.
Qed.

Lemma fold_min_spec nums : forall acc seen,
  Forall (fun n => Num.is_nan n = false) nums ->
  Num.is_nan acc = false ->
  Forall (fun n => Num.is_nan n = false) seen ->
  Forall (fun n => Num.ltb n acc = false) seen ->
  let m := fold_left Num.min nums acc in
  (m = acc \/ m ∈ nums)
  /\ Forall (fun n => Num.ltb n m = false) (seen ++ nums)%list.
Proof.
  induction nums as [|x nums IH]; intros acc seen Hnums Hacc Hseen Hbound; cbn zeta.
  - simpl. rewrite app_nil_r. auto.
  - apply Forall_cons in Hnums as [Hx Hnums]. cbn [fold_left].
    assert (Num.is_nan (Num.min acc x) = false) as Hnan
      by (destruct (min_cases acc x Hacc Hx) as [[_ ->]|[_ ->]]; done).
    assert (Forall (fun n => Num.ltb n (Num.min acc x) = false) (seen ++ [x])%list) as Hb.
    { apply Forall_app. destruct (min_cases acc x Hacc Hx) as [[Hlt ->]|[Hge ->]].
      - split; [|repeat constructor; apply ltb_irrefl].
        rewrite Forall_forall in Hbound, Hseen. apply Forall_forall. intros n Hn.
        apply (ltb_not_above acc); auto.
      - split; [done|]. by repeat constructor. }
    destruct (IH (Num.min acc x) (seen ++ [x])%list Hnums Hnan) as [Hmem Hall]; [|done|].
    { apply Forall_app. split; [done|]. by repeat constructor. }
    cbn zeta in Hmem, Hall. rewrite <- app_assoc in Hall. split; [|exact Hall].
    destruct Hmem as [->|Hin]; [|right; by apply elem_of_cons; right].
    destruct (min_cases acc x Hacc Hx) as [[_ ->]|[_ ->]]; [right|by left].
    apply elem_of_cons. by left.
Qed.

Lemma math_max_member x nums :
  Forall (fun n => Num.is_nan n = false) (x :: nums) ->
  excelFunctions.math_max (x :: nums) ∈ x :: nums.
Proof.
  intros Hnums. unfold excelFunctions.math_max.
  destruct (fold_max_spec (x :: nums) NInf [] Hnums eq_refl) as [Hmem Hall];
    [constructor|constructor|].
  cbn zeta in Hmem, Hall. revert Hmem Hall.
  generalize (fold_left Num.max (x :: nums) NInf). intros m [->|Hin] Hall; [|done].
  rewrite app_nil_l in Hall. apply Forall_cons in Hall as [Hx _].
  apply Forall_cons in Hnums as [Hnan _].
  destruct x as [q| | |]; try done. apply elem_of_cons. by left.
Qed.

Lemma math_min_member x nums :
  Forall (fun n => Num.is_nan n = false) (x :: nums) ->
  excelFunctions.math_min (x :: nums) ∈ x :: nums.
Proof.
  intros Hnums. unfold excelFunctions.math_min.
  destruct (fold_min_spec (x :: nums) PInf [] Hnums eq_refl) as [Hmem Hall];
    [constructor|constructor|].
  cbn zeta in Hmem, Hall. revert Hmem Hall.
  generalize (fold_left Num.min (x :: nums) PInf). intros m [->|Hin] Hall; [|done].
  rewrite app_nil_l in Hall. apply Forall_cons in Hall as [Hx _].
  apply Forall_cons in Hnums as [Hnan _].
  destruct x as [q| | |]; try done. apply elem_of_cons. by left.
Qed.

(** X13: [MAX] of arguments with at least one numeric member is one of the
    numeric members, and none of them is greater; with no numeric member it
    is 0, not -Infinity. *)
Theorem MAX_is_a_greatest_member (args : list jsval) :
  match excelFunctions.numbers_of args with
  | [] => excelFunctions.MAX args = JInt 0
  | nums =>
      exists m, excelFunctions.MAX args = JNum m /\ m ∈ nums
                /\ forall n, n ∈ nums -> Num.ltb m n = false
  end.
Proof.
  unfold excelFunctions.MAX. pose proof (numbers_of_no_nan args) as Hnan.
  destruct (excelFunctions.numbers_of args) as [|x nums]; [reflexivity|].
  exists (excelFunctions.math_max (x :: nums)). split; [reflexivity|].
  split; [by apply math_max_member|].
  destruct (fold_max_spec (x :: nums) NInf [] Hnan eq_refl) as [_ Hall];
    [constructor|constructor|].
  cbn zeta in Hall. rewrite app_nil_l in Hall. by rewrite Forall_forall in Hall.
Qed.

(** X14: [MIN] of arguments with at least one numeric member is one of the
    numeric members, and none of them is smaller; with no numeric member it
    is 0, not Infinity. *)
Theorem MIN_is_a_least_member (args : list jsval) :
  match excelFunctions.numbers_of args with
  | [] => excelFunctions.MIN args = JInt 0
  | nums =>
      exists m, excelFunctions.MIN args = JNum m /\ m ∈ nums
                /\ forall n, n ∈ nums -> Num.ltb n m = false
  end.
Proof.
  unfold excelFunctions.MIN. pose proof (numbers_of_no_nan args) as Hnan.
  destruct (excelFunctions.numbers_of args) as [|x nums]; [reflexivity|].
  exists (excelFunctions.math_min (x :: nums)). split; [reflexivity|].
  split; [by apply math_min_member|].
  destruct (fold_min_spec (x :: nums) PInf [] Hnan eq_refl) as [_ Hall];
    [constructor|constructor|].
  cbn zeta in Hall. rewrite app_nil_l in Hall. by rewrite Forall_forall in Hall.
Qed.

Lemma count_le_counta (items : list jsval) :
  (length (omap (fun v => match v with
                          | JNum n => if Num.is_nan n then None else Some n
                          | _ => None
                          end) items)
   <= length (List.filter excelFunctions.counts_as_value items))%nat.
Proof.
  induction items as [|v items IH]; csimpl; [lia|].
  destruct v as [n|s| | | |]; csimpl; try lia.
  - destruct (Num.is_nan n); csimpl; lia.
  - destruct (negb (is_empty s)); csimpl; lia.
Qed.

(** X15: [COUNT] counts no more members than [COUNTA], and [COUNTA] no
    more than the flattened argument list has. *)
Theorem COUNT_at_most_COUNTA (args : list jsval) :
  exists c a : nat,
    excelFunctions.COUNT args = JInt (Z.of_nat c)
    /\ excelFunctions.COUNTA args = JInt (Z.of_nat a)
    /\ (c <= a <= length (excelFunctions.flat args))%nat.
Proof.
  exists (length (excelFunctions.numbers_of args)),
         (length (List.filter excelFunctions.counts_as_value (excelFunctions.flat args))).
  split; [reflexivity|]. split; [reflexivity|]. split.
  - apply count_le_counta.
  - apply filter_length_le.
Qed.

Lemma numbers_of_members args :
  excelFunctions.numbers_of (numeric_members args) = excelFunctions.numbers_of args.
Proof.
  unfold numeric_members. pose proof (numbers_of_no_nan args) as Hnan.
  unfold excelFunctions.numbers_of at 1. unfold excelFunctions.flat.
  cbn [map concat]. rewrite app_nil_r.
  induction Hnan as [|n nums Hn _ IH]; [reflexivity|]. csimpl. by rewrite Hn, IH.
Qed.

(** X16: the numeric aggregates see only the numeric members of their
    arguments (numbers other than NaN, arrays opened one level): each gives
    on the arguments what it gives on the array of those members.  Strings
    are not converted, so a member "5" does not count. *)
Theorem aggregates_see_numeric_members_only (args : list jsval) :
  excelFunctions.SUM args = excelFunctions.SUM (numeric_members args)
  /\ excelFunctions.AVERAGE args = excelFunctions.AVERAGE (numeric_members args)
  /\ excelFunctions.MAX args = excelFunctions.MAX (numeric_members args)
  /\ excelFunctions.MIN args = excelFunctions.MIN (numeric_members args)
  /\ excelFunctions.COUNT args = excelFunctions.COUNT (numeric_members args).
Proof.
  unfold excelFunctions.SUM, excelFunctions.AVERAGE, excelFunctions.MAX,
    excelFunctions.MIN, excelFunctions.COUNT.
  by rewrite !numbers_of_members.
Qed.

Example strings_are_not_numbers :
  excelFunctions.SUM [JStr "5"; JInt 3; JArr [JNum NaN; JInt 4; JArr [JInt 100]]] = JInt 7
  /\ excelFunctions.COUNTA [JStr "5"; JStr ""; JNull; JNum NaN; JArr []] = JInt 2.
Proof. by vm_compute. Qed.

(** *** The output formatter *)

Lemma getVal_numeric e cell : is_numeric (getVal e cell) = true.
Proof.
  unfold getVal. cbn zeta. by destruct (is_numeric (getCellValue e "wc" cell)) eqn:H.
Qed.

Lemma row_values_shape e row :
  length (row_values e row) = 5%nat
  /\ Forall (fun v => is_numeric v = true) (row_values e row).
Proof.
  split; [reflexivity|]. unfold row_values. repeat constructor; apply getVal_numeric.
Qed.

(** X17: the wc projection is absent exactly when the workbook has no sheet
    wc; otherwise every line item of it carries one value per period, five
    in all, and every value is a number other than NaN, whatever the store
    holds for the cells. *)
Theorem wc_lines_hold_five_numbers (wb : ExcelData) (e : engine) :
  match formatWCSheetData wb e with
  | None => entry "wc" (sheets wb) = None
  | Some sheet =>
      entry "wc" (sheets wb) <> None
      /\ Forall (fun item =>
                   length (WC.values item) = length (WC.periods sheet)
                   /\ Forall (fun v => is_numeric v = true) (WC.values item))
                (wc_line_items sheet)
  end.
Proof.
  unfold formatWCSheetData. destruct (entry "wc" (sheets wb)); [|reflexivity].
  split; [done|]. unfold wc_line_items.
  cbn [WC.workings WC.periods WC.profitAndLossAccount WC.balanceSheet
       WC.administrativeAndSellingExpense WC.otherData WC.pl_lineItems
       WC.sourcesOfFunds WC.applicationOfFunds WC.categories WC.funds_total
       WC.exp_lineItems WC.exp_total WC.lineItems map concat app].
  repeat (apply Forall_cons; split; [apply row_values_shape|]). constructor.
Qed.

Example wc_line_count :
  option_map (fun sheet => length (wc_line_items sheet))
    (formatWCSheetData wc_only_workbook new_engine) = Some 32%nat.
Proof. reflexivity. Qed.

Example wc_row_of_mixed_values :
  row_values mixed_row_engine "8" = [JInt 250; JInt 0; JInt 0; JNum PInf; JInt 0].
Proof. by vm_compute. Qed.

(** X18: in the wc projection both totals of the balance sheet carry the
    values of row 42, and the total of the administrative and selling
    expenses carries those of row 19, the row of the profit-and-loss line
    of these expenses: the two totals of the balance sheet are always equal,
    and so are the expense total and that line. *)
Theorem wc_totals_coincide (wb : ExcelData) (e : engine) (sheetData : SheetData) :
  entry "wc" (sheets wb) = Some sheetData ->
  exists sheet line,
    formatWCSheetData wb e = Some sheet
    /\ WC.values (WC.funds_total (WC.sourcesOfFunds (WC.balanceSheet (WC.workings sheet))))
       = row_values e "42"
    /\ WC.values (WC.funds_total (WC.applicationOfFunds (WC.balanceSheet (WC.workings sheet))))
       = row_values e "42"
    /\ line_named "Adm & Selling Expenses ( C )"
         (WC.pl_lineItems (WC.profitAndLossAccount (WC.workings sheet))) = Some line
    /\ WC.values (WC.exp_total (WC.administrativeAndSellingExpense (WC.workings sheet)))
       = WC.values line.
Proof.
  intros Hwc. unfold formatWCSheetData. rewrite Hwc.
  eexists. eexists. split; [reflexivity|]. cbn. by repeat split.
Qed.

Lemma wc_totals_coincide_witness :
  exists sheet line,
    formatWCSheetData wc_only_workbook mixed_row_engine = Some sheet
    /\ WC.values (WC.funds_total (WC.sourcesOfFunds (WC.balanceSheet (WC.workings sheet))))
       = row_values mixed_row_engine "42"
    /\ WC.values (WC.funds_total (WC.applicationOfFunds (WC.balanceSheet (WC.workings sheet))))
       = row_values mixed_row_engine "42"
    /\ line_named "Adm & Selling Expenses ( C )"
         (WC.pl_lineItems (WC.profitAndLossAccount (WC.workings sheet))) = Some line
    /\ WC.values (WC.exp_total (WC.administrativeAndSellingExpense (WC.workings sheet)))
       = WC.values line.
Proof.
  apply (wc_totals_coincide wc_only_workbook mixed_row_engine
           {| static_values := None; formulas := [] |}).
  reflexivity.
Defined.

Lemma entry_undeclared {A : Type} key (entries : list (string * A)) :
  key ∉ map fst entries -> entry key entries = None.
Proof.
  induction entries as [|[k a] entries IH]; [done|]. cbn [map fst entry].
  intros [Hk Hrest]%not_elem_of_cons.
  destruct (String.eqb_spec k key) as [->|_]; [done|]. by apply IH.
Qed.

Lemma collect_fold_lookup (e : engine) (entries : list (string * InputDefinition)) :
  forall (inputData : gmap string jsval) key,
  NoDup (map fst entries) ->
  prop (fold_left
          (fun inputData (item : string * InputDefinition) =>
             let (key, inputDef) := item in
             <[key := getCellValue e (input_sheet inputDef) (input_cell inputDef)]> inputData)
          entries inputData) key
  = match entry key entries with
    | Some inputDef => getCellValue e (input_sheet inputDef) (input_cell inputDef)
    | None => prop inputData key
    end.
Proof.
  induction entries as [|[k d] entries IH]; intros inputData key Hnodup; [reflexivity|].
  cbn [map fst] in Hnodup. apply NoDup_cons in Hnodup as [Hk Hnodup].
  cbn [fold_left entry]. rewrite IH by done.
  destruct (String.eqb_spec k key) as [->|Hne].
  - rewrite entry_undeclared by done. unfold prop. by rewrite lookup_insert_eq.
  - destruct (entry key entries); [done|]. unfold prop. by rewrite lookup_insert_ne.
Qed.

Lemma collect_inputs_lookup wb e key :
  NoDup (map fst (inputs wb)) ->
  prop (collect_inputs wb e) key = declared_cell_reading wb e key.
Proof.
  intros Hnodup. unfold collect_inputs, declared_cell_reading.
  rewrite collect_fold_lookup by done. by destruct (entry key (inputs wb)).
Qed.

(** X19: every field of the basic-info projection is what the declared
    cell of the input of that name reads in the final store (not what the
    caller supplied), and [undefined] when the workbook declares no input of
    that name.  The keys of the inputs catalogue are distinct. *)
Theorem basic_info_reads_declared_cells (wb : ExcelData) (e : engine) :
  NoDup (map fst (inputs wb)) ->
  Forall (fun field => snd field = declared_cell_reading wb e (fst field))
         (basic_info_fields (formatAssumptionsBasicInfo wb e)).
Proof.
  intros Hnodup. unfold basic_info_fields, formatAssumptionsBasicInfo. cbn zeta.
  repeat (apply Forall_cons; split; [by apply collect_inputs_lookup|]). constructor.
Qed.

Lemma basic_info_reads_declared_cells_witness :
  Forall (fun field =>
            snd field
            = declared_cell_reading default_workbook
                (setInputs default_workbook null_months_data new_engine) (fst field))
         (basic_info_fields
            (formatAssumptionsBasicInfo default_workbook
               (setInputs default_workbook null_months_data new_engine))).
Proof.
  apply (basic_info_reads_declared_cells default_workbook
           (setInputs default_workbook null_months_data new_engine)).
  apply (bool_decide_unpack _). vm_compute. exact I.
Defined.

Lemma Qred_abs_nonneg q : (0 <= Qnum (Qred (Qabs q)))%Z.
Proof.
  pose proof (Qabs_nonneg q) as Hq. rewrite <- (Qred_correct (Qabs q)) in Hq.
  unfold Qle in Hq. simpl in Hq. lia.
Qed.

Lemma math_abs_twice n : Num.math_abs (Num.math_abs n) = Num.math_abs n.
Proof.
  destruct n as [q| | |]; try reflexivity.
  unfold Num.math_abs, Num.fin. f_equal.
  pose proof (Qred_abs_nonneg q) as Hq.
  destruct (Qred (Qabs q)) as [a b] eqn:Hred. simpl in Hq.
  unfold Qabs at 1. rewrite Z.abs_eq by done. rewrite <- Hred. apply Qred_complete, Qred_correct.
Qed.

Lemma math_abs_not_negative n : Num.ltb (Num.math_abs n) Num.zero = false.
Proof.
  destruct n as [q| | |]; try reflexivity.
  apply not_true_is_false. unfold Num.math_abs, Num.fin, Num.zero, Num.of_Z.
  intros Hlt%ltb_fin. pose proof (Qred_abs_nonneg q) as Hq.
  unfold Qlt in Hlt. simpl in Hlt. lia.
Qed.

(** X20: [ABS] of any value is a number that is not below 0 (a number or
    NaN, as the value converts), and applying [ABS] to its own result
    changes nothing. *)
Theorem ABS_is_idempotent (number : jsval) :
  excelFunctions.ABS (excelFunctions.ABS number) = excelFunctions.ABS number
  /\ js_lt (excelFunctions.ABS number) (JInt 0) = false.
Proof.
  unfold excelFunctions.ABS. split.
  - cbn [to_number]. by rewrite math_abs_twice.
  - cbn [js_lt to_number]. apply math_abs_not_negative.
Qed.
